(** * Ussimo server: WooCommerce orders to Merit Aktiva invoices

    A shallow embedding of the invoice pipeline of the Merit service
    (row preparation, total reconciliation, invoice assembly, comment
    parsing, invoice numbering), of the webhook signature check and of the
    scheduler's sync guard, with the properties of the specification
    settled against it.

    Numbers.  The source computes with JavaScript numbers.  Here a number
    is an exact rational ([Q]); the representation error of binary64 is
    not modelled.  A number that went through [toFixed(2)] has two
    decimals and is held as its integer number of cents; [money] gives
    the number back.  [NaN] and the infinities are not values of the
    model: fields that the source parses are either absent or a number. *)

From Stdlib Require Import ZArith QArith Qround Qabs Lia Lqa List String Ascii Bool.
From Stdlib Require Import DecimalString DecimalN DecimalPos.
From Stdlib Require Import Sorting.Sorted Sorting.Permutation.
Import ListNotations.

Local Open Scope Z_scope.

(** ** Money: two-decimal rounding *)

Module Money.

Local Open Scope Q_scope.

(** A number of cents read as a number of euros. *)
Definition money (c : Z) : Q := c # 100.

(** Nearest integer, a tie going away from zero. *)
Definition round_half_away (x : Q) : Z :=
  if Qle_bool 0 x then Qfloor (x + (1 # 2))
  else (- Qfloor (- x + (1 # 2)))%Z.

(** [x.toFixed(2)]: "let n be an integer for which n / 10^2 - x is as
    close to zero as possible; if there are two such n, pick the larger",
    a negative [x] being printed as the minus sign followed by the digits
    of [-x].  The text is held as its number of cents. *)
Definition toFixed2 (x : Q) : Z := round_half_away (x * 100).

(** [parseFloat(x.toFixed(2))]. *)
Definition fixed2 (x : Q) : Q := money (toFixed2 x).

(** The rounding of the specification: round half up at two decimals. *)
Definition round_half_up2 (x : Q) : Q := Qfloor (x * 100 + (1 # 2)) # 100.

Definition VAT_RATE : Q := 22 # 100.

End Money.

(** ** Text: the string operations the services use

    A string is a sequence of bytes; white space is the ASCII white space
    (tab, line feed, vertical tab, form feed, carriage return, space).
    The non-ASCII white space of ECMAScript is outside the model. *)

Module Text.

Local Open Scope string_scope.
Local Open Scope char_scope.

Definition is_digit (c : ascii) : bool :=
  let n := nat_of_ascii c in (48 <=? n)%nat && (n <=? 57)%nat.

(** [\s] *)
Definition is_space (c : ascii) : bool :=
  let n := nat_of_ascii c in
  ((9 <=? n)%nat && (n <=? 13)%nat) || (n =? 32)%nat.

(** Line terminators: what [.] does not match. *)
Definition is_line_terminator (c : ascii) : bool :=
  let n := nat_of_ascii c in (n =? 10)%nat || (n =? 13)%nat.

Definition is_empty (s : string) : bool :=
  match s with EmptyString => true | String _ _ => false end.

(** [/^\d+$/.test(s)] *)
Fixpoint all_digits (s : string) : bool :=
  match s with
  | EmptyString => true
  | String c r => is_digit c && all_digits r
  end.

Definition is_numeric (s : string) : bool := negb (is_empty s) && all_digits s.

(** The longest prefix of characters satisfying [p], and the rest. *)
Fixpoint span (p : ascii -> bool) (s : string) : string * string :=
  match s with
  | EmptyString => (EmptyString, EmptyString)
  | String c r =>
      if p c then let (a, b) := span p r in (String c a, b)
      else (EmptyString, s)
  end.

Fixpoint trimStart (s : string) : string :=
  match s with
  | EmptyString => EmptyString
  | String c r => if is_space c then trimStart r else s
  end.

Fixpoint trimEnd (s : string) : string :=
  match s with
  | EmptyString => EmptyString
  | String c r =>
      let r' := trimEnd r in
      if is_space c && is_empty r' then EmptyString else String c r'
  end.

(** [s.trim()] *)
Definition trim (s : string) : string := trimEnd (trimStart s).

(** [s.split('\n')]: never empty, the empty string gives one empty part. *)
Fixpoint split_nl (s : string) : list string :=
  match s with
  | EmptyString => [EmptyString]
  | String c r =>
      if Ascii.eqb c "010" then EmptyString :: split_nl r
      else match split_nl r with
           | p :: ps => String c p :: ps
           | [] => [String c EmptyString]
           end
  end.

Fixpoint has_newline (s : string) : bool :=
  match s with
  | EmptyString => false
  | String c r => Ascii.eqb c "010" || has_newline r
  end.

(** [n.toString()] of a non-negative integer. *)
Definition N_toString (n : N) : string :=
  NilEmpty.string_of_uint (N.to_uint n).

Definition digit_value (c : ascii) : N := N.of_nat (nat_of_ascii c - 48).

(** [parseInt(s, 10)] of a string of digits. *)
Definition parseInt10 (s : string) : N :=
  fold_left (fun acc c => (acc * 10 + digit_value c)%N) (list_ascii_of_string s) 0%N.

(** [s.slice(-k)]: the last [k] characters, all of [s] if it is shorter. *)
Definition slice_last (k : nat) (s : string) : string :=
  let n := String.length s in substring (n - k) k s.

Definition lower (c : ascii) : ascii :=
  let n := nat_of_ascii c in
  if (65 <=? n)%nat && (n <=? 90)%nat then ascii_of_nat (n + 32) else c.

(** A prefix compared without regard to the case of ASCII letters. *)
Fixpoint strip_prefix_ci (p s : string) : option string :=
  match p, s with
  | EmptyString, _ => Some s
  | String a p', String c s' =>
      if Ascii.eqb (lower a) (lower c) then strip_prefix_ci p' s' else None
  | String _ _, EmptyString => None
  end.

End Text.

(** ** The Merit service: rows, reconciliation, invoice *)

Module Merit.

Import Money Text.
Local Open Scope string_scope.

(** *** Data *)

(** A field the source tests for truthiness and then reads with
    [parseFloat]: [None] when it is falsy (absent, [null], the empty text,
    the number 0), otherwise the number read.  The text ["0.00"] is truthy
    and reads as 0. *)
Definition field := option Q.

Record LineItem := {
  name : string;
  sku : string;              (* the empty text when absent *)
  product_id : N;            (* 0 when absent *)
  quantity : Z;              (* parseInt(item.quantity, 10) *)
  total : field;
  total_tax : field;
  subtotal : field;
  subtotal_tax : field;
  price : field
}.

Record ShippingLine := {
  shipping_total : field;      (* shipping.total *)
  shipping_total_tax : field   (* shipping.total_tax *)
}.

Record CouponLine := {
  code : string;               (* the empty text when absent *)
  discount : field;
  discount_tax : field
}.

Record Billing := {
  first_name : string;
  last_name : string;
  address_1 : string;
  city : string;
  country : string;
  postcode : string;
  email : string;
  phone : string
}.

Record WooOrder := {
  id : string;                       (* the text of wooOrder.id *)
  currency : string;
  order_total : option Q;            (* parseFloat(wooOrder.total), None for NaN *)
  prices_include_tax : bool;
  line_items : list LineItem;
  shipping_lines : list ShippingLine;
  coupon_lines : list CouponLine;
  billing : option Billing
}.

Record MeritItem := {
  Code : string;
  Description : string;
  Type_ : Z;
  UOMName : string
}.

(** [Quantity] and [Price] are texts in the source: an integer, and a
    number of at most two decimals held as cents. *)
Record Row := {
  Item : MeritItem;
  Quantity : Z;
  Price : Z;
  DiscountPct : Z;
  DiscountAmount : Z;
  TaxId : string;
  LocationCode : Z
}.

Record Config := {
  merit_vatTaxId : option string;           (* config.merit.vatTaxId, None when falsy *)
  woocommerce_webhookSecret : option string (* config.woocommerce?.webhookSecret *)
}.

Definition getVATTaxId (config : Config) : string :=
  match merit_vatTaxId config with
  | Some t => t
  | None => "307000b4-f1f2-4bc7-a110-24cb18d77212"
  end.

(** [a || b] on texts. *)
Definition or_else (a b : string) : string := if is_empty a then b else a.

Definition Qlt_bool (a b : Q) : bool := negb (Qle_bool b a).

Local Open Scope Q_scope.

(** *** Row preparation *)

Record ProductInfo := { pi_code : string; pi_name : string; pi_unit : string }.

(** The table [productMapping].  Names inherited from [Object.prototype]
    are not keys of the model. *)
Definition productMapping (productName : string) : option ProductInfo :=
  if String.eqb productName "Toalillemuld biohuumusega" then
    Some {| pi_code := "4744278011219"; pi_name := "Toalillemuld 2, 5 l"; pi_unit := "tk" |}
  else if String.eqb productName "Biohuumuse kontsentraat mahekasvatuseks" then
    Some {| pi_code := "4742022540015";
            pi_name := "Biohuumuse kontsentraat mahekasvatuseks, 500ml"; pi_unit := "tk" |}
  else if String.eqb productName "Biohuumuse kontsentraat lilledele" then
    Some {| pi_code := "4742022540022";
            pi_name := "Biohuumuse kontsentraat Lilledele, 500ml"; pi_unit := "tk" |}
  else if String.eqb productName "Ettekasvatussegu biohuumusega" then
    Some {| pi_code := "4744278011011";
            pi_name := "Ettekasvatussegu biohuumusega 5 l"; pi_unit := "tk" |}
  else if String.eqb productName "Rammus püsikusegu biohuumusega" then
    Some {| pi_code := "4744278011110";
            pi_name := "Rammus püsikusegu biohuumusega 5, 0 l"; pi_unit := "tk" |}
  else if String.eqb productName "Biohuumus 2, 5 l Ussimo" then
    Some {| pi_code := "4744278011318"; pi_name := "Biohuumus 2, 5 l Ussimo"; pi_unit := "tk" |}
  else if String.eqb productName "Biohuumus 5 l Ussimo" then
    Some {| pi_code := "4744278010014"; pi_name := "Biohuumus 5 l Ussimo"; pi_unit := "tk" |}
  else if String.eqb productName "Biohuumus Universaalne Maheväetis 5l" then
    Some {| pi_code := "4744278010014"; pi_name := "Biohuumus 5 l Ussimo"; pi_unit := "tk" |}
  else if String.eqb productName "Vertikaalne taimekast" then
    Some {| pi_code := "4744278010038"; pi_name := "Vertikaalne taimekast"; pi_unit := "tk" |}
  else None.

(** The pre-tax total of a "Toataimede Uus Algus" item ([totalPrice]). *)
Definition bundleTotalPrice (pricesIncludeTax : bool) (item : LineItem) : Q :=
  let quantity := inject_Z (quantity item) in
  match total item with
  | Some t =>
      match total_tax item with
      | Some totalTax => fixed2 (t - totalTax)
      | None => if pricesIncludeTax then fixed2 (t / (122 # 100)) else t
      end
  | None =>
      match subtotal item with
      | Some s =>
          match subtotal_tax item with
          | Some subtotalTax => fixed2 (s - subtotalTax)
          | None => if pricesIncludeTax then fixed2 (s / (122 # 100)) else s
          end
      | None =>
          match price item with
          | Some p =>
              let unitPrice := if pricesIncludeTax then fixed2 (p / (122 # 100)) else p in
              fixed2 (unitPrice * quantity)
          | None => (820 # 100) * quantity
          end
      end
  end.

Definition soilRetailPrice : Q := 215 # 100.
Definition concentrateRetailPrice : Q := 299 # 100.

(** The unit prices of the two replacement products, [finalSoilPrice] and
    [finalConcentratePrice].  For quantity 0 the source divides by zero
    (the prices are [NaN]); the model then has [x / 0 = 0]. *)
Definition replacementPrices (totalPrice : Q) (qty : Z) : Q * Q :=
  let soilUnits := inject_Z (4 * qty) in
  let concentrateUnits := inject_Z (2 * qty) in
  let soilRetailTotal := soilUnits * soilRetailPrice in
  let concentrateRetailTotal := concentrateUnits * concentrateRetailPrice in
  let totalRetailValue := soilRetailTotal + concentrateRetailTotal in
  let discountFactor := totalPrice / totalRetailValue in
  let discountedSoilPrice := fixed2 (soilRetailPrice * discountFactor) in
  let discountedConcentratePrice := fixed2 (concentrateRetailPrice * discountFactor) in
  let discountedSoilTotal := fixed2 (discountedSoilPrice * soilUnits) in
  let discountedConcentrateTotal := fixed2 (discountedConcentratePrice * concentrateUnits) in
  let discountedTotal := discountedSoilTotal + discountedConcentrateTotal in
  let difference := fixed2 (totalPrice - discountedTotal) in
  if negb (Qeq_bool difference 0) then
    let soilProportion := soilRetailTotal / totalRetailValue in
    let soilAdjustment := fixed2 (difference * soilProportion / soilUnits) in
    (fixed2 (discountedSoilPrice + soilAdjustment), discountedConcentratePrice)
  else
    (discountedSoilPrice, discountedConcentratePrice).

(** A replacement product of the bundle. *)
Record Replacement := {
  rep_name : string;
  rep_code : string;
  rep_description : string;
  rep_unit : string;
  rep_quantity : Z;
  rep_price : Q
}.

(** The two rows that replace a "Toataimede Uus Algus" item. *)
Definition bundleRows (vatTaxId : string) (pricesIncludeTax : bool) (item : LineItem)
  : list Row :=
  let qty := quantity item in
  let totalPrice := bundleTotalPrice pricesIncludeTax item in
  let (finalSoilPrice, finalConcentratePrice) := replacementPrices totalPrice qty in
  let replacements :=
    [ {| rep_name := "Ussimo Toalillemuld Biohuumusega";
         rep_code := "4744278011219";
         rep_description := "Toalillemuld 2, 5 l";
         rep_unit := "tk";
         rep_quantity := 4 * qty;
         rep_price := finalSoilPrice |};
      {| rep_name := "Ussimo Biohuumuse Kontsentraat Lilledele";
         rep_code := "4742022540022";
         rep_description := "Biohuumuse kontsentraat Lilledele, 500ml";
         rep_unit := "tk";
         rep_quantity := 2 * qty;
         rep_price := finalConcentratePrice |} ] in
  map (fun product =>
         {| Item := {| Code := rep_code product;
                       Description := rep_description product;
                       Type_ := 3;
                       UOMName := rep_unit product |};
            Quantity := rep_quantity product;
            Price := toFixed2 (rep_price product);
            DiscountPct := 0;
            DiscountAmount := 0;
            TaxId := vatTaxId;
            LocationCode := 1 |})
      replacements.

(** The unit price of a regular item, in cents. *)
Definition regularPrice (pricesIncludeTax : bool) (item : LineItem) : Z :=
  let qty := quantity item in
  let from_price :=
    match price item with
    | Some p =>
        if pricesIncludeTax then toFixed2 (p / (122 # 100)) else toFixed2 p
    | None => 0%Z
    end in
  match subtotal item with
  | Some s =>
      if (qty >? 0)%Z then
        match subtotal_tax item with
        | Some subtotalTax =>
            if pricesIncludeTax then toFixed2 ((s - subtotalTax) / inject_Z qty)
            else toFixed2 (s / inject_Z qty)
        | None => toFixed2 (s / inject_Z qty)
        end
      else from_price
  | None => from_price
  end.

Definition regularInfo (item : LineItem) : ProductInfo :=
  match productMapping (name item) with
  | Some info => info
  | None =>
      {| pi_code := if negb (is_empty (sku item)) then sku item
                    else if negb (N.eqb (product_id item) 0) then N_toString (product_id item)
                    else "NOSKU";
         pi_name := name item;
         pi_unit := "tk" |}
  end.

Definition itemRows (vatTaxId : string) (pricesIncludeTax : bool) (item : LineItem)
  : list Row :=
  if String.eqb (name item) "Toataimede Uus Algus" then
    bundleRows vatTaxId pricesIncludeTax item
  else
    let productInfo := regularInfo item in
    [ {| Item := {| Code := pi_code productInfo;
                    Description := pi_name productInfo;
                    Type_ := 3;
                    UOMName := pi_unit productInfo |};
         Quantity := quantity item;
         Price := regularPrice pricesIncludeTax item;
         DiscountPct := 0;
         DiscountAmount := 0;
         TaxId := vatTaxId;
         LocationCode := 1 |} ].

(** [shippingTotal] has two decimals throughout and is held in cents; its
    text in the row is [shippingTotal.toString()]. *)
Definition shippingRows (vatTaxId : string) (pricesIncludeTax : bool) (shipping : ShippingLine)
  : list Row :=
  let shippingTotal :=
    toFixed2 (match shipping_total shipping with Some t => t | None => 0 end) in
  if (shippingTotal <=? 0)%Z then []
  else
    let shippingTotal :=
      match shipping_total_tax shipping with
      | Some shippingTax =>
          if pricesIncludeTax then toFixed2 (money shippingTotal - shippingTax)
          else shippingTotal
      | None => shippingTotal
      end in
    [ {| Item := {| Code := "Transport";
                    Description := "Pakiautomaat";
                    Type_ := 3;
                    UOMName := "tk" |};
         Quantity := 1;
         Price := shippingTotal;
         DiscountPct := 0;
         DiscountAmount := 0;
         TaxId := vatTaxId;
         LocationCode := 1 |} ].

Definition couponRows (vatTaxId : string) (pricesIncludeTax : bool) (coupon : CouponLine)
  : list Row :=
  let couponCode := or_else (code coupon) "Discount" in
  let discountAmount := match discount coupon with Some d => d | None => 0 end in
  if Qle_bool discountAmount 0 then []
  else
    let discountAmount :=
      match discount_tax coupon with
      | Some discountTax =>
          if pricesIncludeTax then fixed2 (discountAmount - discountTax) else discountAmount
      | None => discountAmount
      end in
    let negativeAmount := - Qabs discountAmount in
    [ {| Item := {| Code := "DISCOUNT";
                    Description := "Allahindlus (" ++ couponCode ++ ")";
                    Type_ := 3;
                    UOMName := "tk" |};
         Quantity := 1;
         Price := toFixed2 negativeAmount;
         DiscountPct := 0;
         DiscountAmount := 0;
         TaxId := vatTaxId;
         LocationCode := 1 |} ].

(** [prepareInvoiceRowsFromWooOrder]: product rows in the order of the
    line items, then shipping rows, then discount rows. *)
Definition prepareInvoiceRowsFromWooOrder (config : Config) (wooOrder : WooOrder)
  : list Row :=
  let vatTaxId := getVATTaxId config in
  let pit := prices_include_tax wooOrder in
  flat_map (itemRows vatTaxId pit) (line_items wooOrder)
  ++ flat_map (shippingRows vatTaxId pit) (shipping_lines wooOrder)
  ++ flat_map (couponRows vatTaxId pit) (coupon_lines wooOrder).

(** *** Invoice numbering *)

(** What [makeRequest('getinvoices', ...)] gives: a rejection, data that is
    not an array, or the records, each by the text of its [InvoiceNo]. *)
Inductive Response :=
| Throws
| NotArray
| Invoices (numbers : list string).

(** [Math.max(...numbers)] of a list that is not empty. *)
Definition maxN (numbers : list N) : N := fold_right N.max 0%N numbers.

(** [getNextInvoiceNumber]; [now] is [Date.now()].  Integers are exact:
    the loss of precision above 2^53 is not modelled. *)
Definition getNextInvoiceNumber (response : Response) (now : N) : string :=
  match response with
  | Throws =>
      let timestamp := slice_last 6 (N_toString now) in
      "ERR" ++ timestamp
  | NotArray => "1000"
  | Invoices [] => "1000"
  | Invoices invoices =>
      let invoiceNumbers := map parseInt10 (filter is_numeric invoices) in
      match invoiceNumbers with
      | [] => "1000"
      | _ =>
          let maxInvoiceNumber := maxN invoiceNumbers in
          N_toString (maxInvoiceNumber + 1)
      end
  end.

(** *** Comment parsing *)

(** The group of [/Ussimo\s+#\d+\s+(.+)/i] when the match starts at the
    head of [s].  [\s+] and [\d+] before [#] and the white space are
    forced to take their whole run; the last [\s+] gives characters back
    only when nothing follows it, until [.+] has a character that is not
    a line terminator to start from. *)
Fixpoint backtrack_group (w : string) : option string :=
  match w with
  | EmptyString => None
  | String c r =>
      match backtrack_group r with
      | Some g => Some g
      | None =>
          if is_line_terminator c then None
          else Some (fst (span (fun x => negb (is_line_terminator x)) w))
      end
  end.

Definition match_ussimo_here (s : string) : option string :=
  match strip_prefix_ci "Ussimo" s with
  | None => None
  | Some r1 =>
      let (w1, r2) := span is_space r1 in
      if is_empty w1 then None
      else match r2 with
           | String "#" r3 =>
               let (d, r4) := span is_digit r3 in
               if is_empty d then None
               else
                 let (w2, r5) := span is_space r4 in
                 match w2, r5 with
                 | EmptyString, _ => None
                 | String _ _, String _ _ =>
                     Some (fst (span (fun x => negb (is_line_terminator x)) r5))
                 | String _ w2', EmptyString => backtrack_group w2'
                 end
           | _ => None
           end
  end.

(** The leftmost match. *)
Fixpoint match_ussimo (s : string) : option string :=
  match match_ussimo_here s with
  | Some g => Some g
  | None =>
      match s with
      | EmptyString => None
      | String _ r => match_ussimo r
      end
  end.

(** [extractCustomerNameFromHComment]; [None] is [null]. *)
Definition extractCustomerNameFromHComment (comment : string) : option string :=
  if is_empty comment then None
  else
    let parts := split_nl comment in
    if (3 <=? List.length parts)%nat then Some (trim (last parts EmptyString))
    else if (List.length parts =? 1)%nat then
      match match_ussimo comment with
      | Some g => Some (trim g)
      | None => Some (trim comment)
      end
    else Some (trim comment).

(** The group of [/#(\d+)/]: the digits after the first [#] that has a
    digit behind it. *)
Fixpoint match_order_number (s : string) : option string :=
  match s with
  | EmptyString => None
  | String c r =>
      if Ascii.eqb c "#" then
        let d := fst (span is_digit r) in
        if is_empty d then match_order_number r else Some d
      else match_order_number r
  end.

(** [extractOrderNumberFromHComment]; [None] is [null]. *)
Definition extractOrderNumberFromHComment (comment : string) : option string :=
  if is_empty comment then None else match_order_number comment.

(** The comment the invoice carries. *)
Definition hComment (orderId customerName : string) : string :=
  "Ussimo " ++ String "010" ("#" ++ orderId ++ String "010" customerName).

(** *** Reconciliation and assembly *)

(** [parseFloat(row.Price) * parseFloat(row.Quantity)] *)
Definition rowTotal (row : Row) : Q := money (Price row) * inject_Z (Quantity row).

(** [invoiceRows.reduce((sum, row) => sum + price * quantity, 0)] *)
Definition rowsSum (rows : list Row) : Q :=
  fold_left (fun sum row => sum + rowTotal row) rows 0.

(** The tax Merit is expected to compute: each row's tax rounded, then
    summed. *)
Definition predictedMeritTax (rows : list Row) : Q :=
  fold_left (fun sum row => sum + fixed2 (rowTotal row * VAT_RATE)) rows 0.

(** The state of the search for the largest row: [largestItemIndex]
    ([None] is -1), [largestItemTotal], and the index of the next row. *)
Definition largest_step (st : option nat * Q * nat) (row : Row) : option nat * Q * nat :=
  let '(largestItemIndex, largestItemTotal, index) := st in
  let total := rowTotal row in
  if Qlt_bool largestItemTotal total then (Some index, total, S index)
  else (largestItemIndex, largestItemTotal, S index).

Definition largest_scan (rows : list Row) : option nat * Q * nat :=
  fold_left largest_step rows (None, 0, 0%nat).

Definition largestItemIndex (rows : list Row) : option nat :=
  fst (fst (largest_scan rows)).

Definition withPrice (row : Row) (p : Z) : Row :=
  {| Item := Item row; Quantity := Quantity row; Price := p;
     DiscountPct := DiscountPct row; DiscountAmount := DiscountAmount row;
     TaxId := TaxId row; LocationCode := LocationCode row |}.

(** [rows[i].Price = p] *)
Fixpoint setPrice (i : nat) (p : Z) (rows : list Row) : list Row :=
  match rows, i with
  | [], _ => []
  | row :: rest, O => withPrice row p :: rest
  | row :: rest, S j => row :: setPrice j p rest
  end.

(** The new price of the row that is adjusted. *)
Definition adjustedPrice (wooTotal rowsTotalRounded : Q) (row : Row) : Z :=
  let targetPreTaxTotal := fixed2 (wooTotal / (1 + VAT_RATE)) in
  let currentPreTaxTotal := rowsTotalRounded in
  let exactPreTaxDifference := fixed2 (targetPreTaxTotal - currentPreTaxTotal) in
  let quantity := inject_Z (Quantity row) in
  let currentPrice := money (Price row) in
  let currentTotal := currentPrice * quantity in
  let adjustedItemTotal := fixed2 (currentTotal + exactPreTaxDifference) in
  let calculatedPrice := adjustedItemTotal / quantity in
  toFixed2 (fixed2 calculatedPrice).

(** [totalDifference]: the order total against rows total plus tax on it. *)
Definition totalDifference (wooTotal : Q) (rows : list Row) : Q :=
  let rowsTotalRounded := fixed2 (rowsSum rows) in
  let taxAmount := fixed2 (rowsTotalRounded * VAT_RATE) in
  let meritTotal := fixed2 (rowsTotalRounded + taxAmount) in
  fixed2 (wooTotal - meritTotal).

(** The price adjustment of [createInvoiceFromWooCommerceOrder].  The tax
    amounts recomputed in the source after the adjustment only reach the
    log and are left out. *)
Definition adjustRows (wooTotal : Q) (invoiceRows : list Row) : list Row :=
  let rowsTotalRounded := fixed2 (rowsSum invoiceRows) in
  if negb (Qeq_bool (totalDifference wooTotal invoiceRows) 0) then
    match largestItemIndex invoiceRows with
    | Some i =>
        match nth_error invoiceRows i with
        | Some row => setPrice i (adjustedPrice wooTotal rowsTotalRounded row) invoiceRows
        | None => invoiceRows
        end
    | None => invoiceRows
    end
  else invoiceRows.

Record CustomerData := {
  Name : string;
  Address : string;
  City : string;
  CountryCode : string;
  PostalCode : string;
  Email : string;
  PhoneNo : string;
  CurrencyCode : string
}.

Record TaxAmountEntry := { TaxAmount_TaxId : string; Amount : Q }.

Record Invoice := {
  Customer : CustomerData;
  DocDate : string;
  DueDate : string;
  InvoiceNo : string;
  InvoiceRow : list Row;
  RoundingAmount : Q;
  HComment : string;
  FComment : string;
  AccountingDoc : Z;
  TotalAmount : Q;
  TaxAmount : list TaxAmountEntry
}.

(** What the function reads from outside: the formatted dates of today
    and of the day seven days later, the answer of Merit to the request
    for recent invoices, and the clock. *)
Record Env := {
  docDate : string;
  dueDateFormatted : string;
  recentInvoices : Response;
  now : N
}.

Inductive Failure :=
| InvalidOrderTotal    (* Invalid WooCommerce order total *)
| NoBilling.           (* reading a name of a missing billing object *)

(** The function either throws or hands a document to [createInvoice]. *)
Inductive Outcome :=
| Failed (e : Failure)
| Submitted (invoiceData : Invoice).

(** [createInvoiceFromWooCommerceOrder], up to the call of
    [createInvoice]. *)
Definition createInvoiceFromWooCommerceOrder
    (config : Config) (env : Env) (wooOrder : WooOrder) : Outcome :=
  match order_total wooOrder with
  | None => Failed InvalidOrderTotal
  | Some t =>
      let wooTotal := fixed2 t in
      if Qle_bool wooTotal 0 then Failed InvalidOrderTotal
      else
        let invoiceRows :=
          adjustRows wooTotal (prepareInvoiceRowsFromWooOrder config wooOrder) in
        match billing wooOrder with
        | None => Failed NoBilling
        | Some b =>
            let customerName := first_name b ++ " " ++ last_name b in
            let nextInvoiceNumber :=
              getNextInvoiceNumber (recentInvoices env) (now env) in
            let vatTaxId := getVATTaxId config in
            let calculatedRowsTotal := rowsSum invoiceRows in
            let exactRowsTotal := fixed2 calculatedRowsTotal in
            let calculatedTaxAmount := fixed2 (exactRowsTotal * VAT_RATE) in
            let expectedMeritTotal := fixed2 (exactRowsTotal + calculatedTaxAmount) in
            let roundingAmount := fixed2 (wooTotal - expectedMeritTotal) in
            let predictedMeritTaxRounded := fixed2 (predictedMeritTax invoiceRows) in
            let taxDifference := fixed2 (predictedMeritTaxRounded - calculatedTaxAmount) in
            let roundingAmount := fixed2 (roundingAmount - taxDifference) in
            Submitted
              {| Customer :=
                   {| Name := "Eraisik";
                      Address := address_1 b;
                      City := city b;
                      CountryCode := or_else (country b) "EE";
                      PostalCode := postcode b;
                      Email := email b;
                      PhoneNo := phone b;
                      CurrencyCode := or_else (currency wooOrder) "EUR" |};
                 DocDate := docDate env;
                 DueDate := dueDateFormatted env;
                 InvoiceNo := nextInvoiceNumber;
                 InvoiceRow := invoiceRows;
                 RoundingAmount := roundingAmount;
                 HComment := hComment (id wooOrder) customerName;
                 FComment := "II kategooria: orgaaniliste väetiste ja mullaparandusainete transport ja turule laskmine, tegevusloa nr. R/04/ABP/105";
                 AccountingDoc := 1;
                 TotalAmount := exactRowsTotal;
                 TaxAmount :=
                   [ {| TaxAmount_TaxId := vatTaxId; Amount := calculatedTaxAmount |} ] |}
        end
  end.

End Merit.

(** ** The webhook signature check *)

Module Webhook.

Import Merit.

Section Validate.

(** The request body, [JSON.stringify] on it and HMAC-SHA256 with base64
    digest are taken as given; [None] stands for a call that throws. *)
Variable Body : Type.
Variable stringify : Body -> option string.
Variable hmac_sha256_base64 : string -> string -> option string.

Record Request := {
  signature : option string;   (* the x-wc-webhook-signature header, None when falsy *)
  body : Body
}.

Definition validateWooCommerceWebhook (config : Config) (req : Request) : bool :=
  match woocommerce_webhookSecret config with
  | None => true
  | Some webhookSecret =>
      match signature req with
      | None => false
      | Some signature =>
          match stringify (body req) with
          | None => false
          | Some payload =>
              match hmac_sha256_base64 webhookSecret payload with
              | None => false
              | Some calculatedSignature => String.eqb signature calculatedSignature
              end
          end
      end
  end.

End Validate.

End Webhook.

(** ** The scheduler: the guard of [syncOrdersToInvoices]

    The function is asynchronous: it runs until it awaits a collaborator,
    other callers run meanwhile, and it goes on when the awaited call
    settles.  A run that is suspended is recorded by the place where it
    waits together with its local variables; the module variables are
    shared by all runs. *)

Module Scheduler.

Local Open Scope nat_scope.
Local Open Scope string_scope.

Record OrderSummary := { order_id : N; status : string }.

(** The module variables [isSyncing], [lastSyncTime], [processedOrders]. *)
Record State := {
  isSyncing : bool;
  lastSyncTime : option N;
  processedOrders : list N
}.

Record Results := {
  res_total : nat;
  res_processed : nat;
  res_skipped : nat;
  res_failed : nat;
  res_succeeded : nat
}.

(** How a call of [syncOrdersToInvoices] ends. *)
Inductive SyncResult :=
| Skipped                      (* { status: 'skipped', ... } *)
| Completed (results : Results)
| Thrown.

(** Calls to collaborators. *)
Inductive Call :=
| GetOrders (after before : N)
| GetOrderById (orderId : N)
| TransformOrderToInvoice (orderId : N).

(** How an awaited call settles. *)
Inductive Answer :=
| Rejected
| ResolvedOrders (orders : list OrderSummary)
| Resolved.

(** Where a suspended run waits. *)
Inductive Control :=
| AtGetOrders (after before : N)
| AtGetOrderById (order : OrderSummary) (rest : list OrderSummary) (results : Results)
| AtTransform (order : OrderSummary) (rest : list OrderSummary) (results : Results).

Definition pending (c : Control) : Call :=
  match c with
  | AtGetOrders a b => GetOrders a b
  | AtGetOrderById o _ _ => GetOrderById (order_id o)
  | AtTransform o _ _ => TransformOrderToInvoice (order_id o)
  end.

Definition setSyncing (b : bool) (st : State) : State :=
  {| isSyncing := b; lastSyncTime := lastSyncTime st;
     processedOrders := processedOrders st |}.

Definition skip (r : Results) : Results :=
  {| res_total := res_total r; res_processed := res_processed r;
     res_skipped := S (res_skipped r); res_failed := res_failed r;
     res_succeeded := res_succeeded r |}.

Definition fail (r : Results) : Results :=
  {| res_total := res_total r; res_processed := S (res_processed r);
     res_skipped := res_skipped r; res_failed := S (res_failed r);
     res_succeeded := res_succeeded r |}.

Definition succeed (r : Results) : Results :=
  {| res_total := res_total r; res_processed := S (res_processed r);
     res_skipped := res_skipped r; res_failed := res_failed r;
     res_succeeded := S (res_succeeded r) |}.

(** The [finally] block. *)
Definition finally (st : State) : State := setSyncing false st.

(** The loop over the orders, from the head of [orders] to the next
    await or to the end of the function. *)
Fixpoint processOrders (time : N) (orders : list OrderSummary) (results : Results)
    (st : State) : State * (SyncResult + Control) :=
  match orders with
  | [] =>
      let st := {| isSyncing := isSyncing st; lastSyncTime := Some time;
                   processedOrders := processedOrders st |} in
      (finally st, inl (Completed results))
  | order :: rest =>
      if existsb (N.eqb (order_id order)) (processedOrders st) then
        processOrders time rest (skip results) st
      else if negb (String.eqb (status order) "completed") then
        processOrders time rest (skip results) st
      else (st, inr (AtGetOrderById order rest results))
  end.

(** A call of [syncOrdersToInvoices(fromDate, toDate)], up to its first
    await.  The test of [isSyncing] is inside the [try] whose [finally]
    resets the variable. *)
Definition syncOrdersToInvoices (fromDate toDate : N) (st : State)
  : State * (SyncResult + Control) :=
  if isSyncing st then (finally st, inl Skipped)
  else
    let st := setSyncing true st in
    (st, inr (AtGetOrders fromDate toDate)).

(** A suspended run goes on with the answer to its call. *)
Definition resume (time : N) (c : Control) (a : Answer) (st : State)
  : State * (SyncResult + Control) :=
  match c with
  | AtGetOrders _ _ =>
      match a with
      | ResolvedOrders orders =>
          let results := {| res_total := List.length orders; res_processed := 0;
                            res_skipped := 0; res_failed := 0; res_succeeded := 0 |} in
          processOrders time orders results st
      | _ => (finally st, inl Thrown)
      end
  | AtGetOrderById order rest results =>
      match a with
      | Rejected => processOrders time rest (fail results) st
      | _ => (st, inr (AtTransform order rest results))
      end
  | AtTransform order rest results =>
      match a with
      | Rejected => processOrders time rest (fail results) st
      | _ =>
          let st := {| isSyncing := isSyncing st; lastSyncTime := lastSyncTime st;
                       processedOrders := order_id order :: processedOrders st |} in
          processOrders time rest (succeed results) st
      end
  end.

(** The process: the module variables, the runs in flight, and what has
    been observed so far (calls made, results returned). *)
Record System := {
  globals : State;
  inflight : list Control;
  calls : list Call;
  returned : list SyncResult
}.

Inductive Input :=
| Trigger (fromDate toDate : N)          (* a caller invokes syncOrdersToInvoices *)
| Settle (i : nat) (a : Answer) (time : N). (* the call of the i-th run in flight settles *)

Definition initial : System :=
  {| globals := {| isSyncing := false; lastSyncTime := None; processedOrders := [] |};
     inflight := []; calls := []; returned := [] |}.

Definition remove_nth {A} (i : nat) (l : list A) : list A :=
  firstn i l ++ skipn (S i) l.

Definition land_run (sys : System) (others : list Control)
    (r : State * (SyncResult + Control)) : System :=
  match r with
  | (st, inl res) =>
      {| globals := st; inflight := others; calls := calls sys;
         returned := returned sys ++ [res] |}
  | (st, inr c) =>
      {| globals := st; inflight := others ++ [c];
         calls := calls sys ++ [pending c]; returned := returned sys |}
  end.

Definition step (sys : System) (i : Input) : System :=
  match i with
  | Trigger fromDate toDate =>
      land_run sys (inflight sys) (syncOrdersToInvoices fromDate toDate (globals sys))
  | Settle n a time =>
      match nth_error (inflight sys) n with
      | Some c => land_run sys (remove_nth n (inflight sys)) (resume time c a (globals sys))
      | None => sys
      end
  end.

Definition run (inputs : list Input) : System := fold_left step inputs initial.

End Scheduler.

(** * Properties *)

(** ** Facts about rounding *)

Module MoneyFacts.

Import Money.
Local Open Scope Q_scope.

Lemma money_plus a b : money a + money b == money (a + b).
Proof. unfold money, Qeq; simpl; ring. Qed.

Lemma money_minus a b : money a - money b == money (a - b).
Proof. unfold money, Qeq; simpl; ring. Qed.

Lemma money_scale a n : money a * inject_Z n == money (a * n).
Proof. unfold money, Qeq; simpl; ring. Qed.

Lemma money_inj a b : money a == money b -> a = b.
Proof. unfold money, Qeq; simpl; lia. Qed.

Lemma money_zero : money 0 == 0.
Proof. reflexivity. Qed.

Lemma round_half_away_Z (z : Z) : round_half_away (inject_Z z) = z.
Proof.
  unfold round_half_away.
  destruct (Qle_bool 0 (inject_Z z)) eqn:E.
  - unfold Qfloor, Qplus, inject_Z; simpl.
    replace (z * 2 + 1)%Z with (1 + z * 2)%Z by ring.
    rewrite Z.div_add by lia. reflexivity.
  - unfold Qfloor, Qplus, Qopp, inject_Z; simpl.
    replace (- z * 2 + 1)%Z with (1 + (- z) * 2)%Z by ring.
    rewrite Z.div_add by lia. simpl. lia.
Qed.

#[global] Instance round_half_away_Proper : Proper (Qeq ==> eq) round_half_away.
Proof.
  intros x y H. unfold round_half_away.
  rewrite H. destruct (Qle_bool 0 y); now rewrite H.
Qed.

#[global] Instance toFixed2_Proper : Proper (Qeq ==> eq) toFixed2.
Proof. intros x y H. unfold toFixed2. now rewrite H. Qed.

#[global] Instance fixed2_Proper : Proper (Qeq ==> Qeq) fixed2.
Proof. intros x y H. unfold fixed2. now rewrite H. Qed.

(** Rounding a two-decimal number gives it back. *)
Lemma toFixed2_money (c : Z) : toFixed2 (money c) = c.
Proof.
  unfold toFixed2.
  assert (H : money c * 100 == inject_Z c)
    by (unfold money, inject_Z, Qeq; simpl; ring).
  rewrite H. apply round_half_away_Z.
Qed.

Lemma fixed2_money (c : Z) : fixed2 (money c) == money c.
Proof. unfold fixed2. now rewrite toFixed2_money. Qed.

(** The rounded value is a nearest integer. *)
Lemma round_half_away_near (x : Q) :
  x - (1 # 2) <= inject_Z (round_half_away x) <= x + (1 # 2).
Proof.
  unfold round_half_away.
  destruct (Qle_bool 0 x) eqn:E.
  - pose proof (Qfloor_le (x + (1 # 2))) as H1.
    pose proof (Qlt_floor (x + (1 # 2))) as H2.
    rewrite inject_Z_plus in H2. change (inject_Z 1) with 1 in H2.
    generalize dependent (inject_Z (Qfloor (x + (1 # 2)))).
    intros q H1 H2. split; lra.
  - pose proof (Qfloor_le (- x + (1 # 2))) as H1.
    pose proof (Qlt_floor (- x + (1 # 2))) as H2.
    rewrite inject_Z_plus in H2. change (inject_Z 1) with 1 in H2.
    rewrite inject_Z_opp.
    generalize dependent (inject_Z (Qfloor (- x + (1 # 2)))).
    intros q H1 H2. split; lra.
Qed.

(** On non-negative numbers [toFixed(2)] is round-half-up. *)
Lemma fixed2_round_half_up2 (x : Q) : 0 <= x -> fixed2 x = round_half_up2 x.
Proof.
  intros Hx. unfold fixed2, round_half_up2, money, toFixed2, round_half_away.
  assert (H : Qle_bool 0 (x * 100) = true)
    by (apply Qle_bool_iff; nra).
  now rewrite H.
Qed.

(** A number that is not positive does not round to a positive one. *)
Lemma round_half_away_nonpos (x : Q) : x <= 0 -> (round_half_away x <= 0)%Z.
Proof.
  intros Hx. destruct (round_half_away_near x) as [_ H].
  assert (H1 : inject_Z (round_half_away x) <= 1 # 2) by lra.
  unfold Qle, inject_Z in H1; simpl in H1. lia.
Qed.

Lemma toFixed2_nonpos (x : Q) : x <= 0 -> (toFixed2 x <= 0)%Z.
Proof. intros Hx. apply round_half_away_nonpos. nra. Qed.

End MoneyFacts.

(** ** Rows and their sums *)

Module RowFacts.

Import Money MoneyFacts Text Merit.
Local Open Scope Q_scope.

(** The sums of the rows, in cents. *)
Definition centsTotal (rows : list Row) : Z :=
  fold_right (fun row acc => (Price row * Quantity row + acc)%Z) 0%Z rows.

Definition centsTax (rows : list Row) : Z :=
  fold_right (fun row acc => (toFixed2 (rowTotal row * VAT_RATE) + acc)%Z) 0%Z rows.

Lemma rowTotal_money (row : Row) : rowTotal row == money (Price row * Quantity row).
Proof. unfold rowTotal. apply money_scale. Qed.

Lemma rowsSum_from (rows : list Row) (acc : Q) :
  fold_left (fun sum row => sum + rowTotal row) rows acc == acc + money (centsTotal rows).
Proof.
  revert acc. induction rows as [|row rows IH]; intros acc; simpl.
  - rewrite money_zero. ring.
  - rewrite IH, rowTotal_money, <- (money_plus (Price row * Quantity row)). ring.
Qed.

Lemma rowsSum_money (rows : list Row) : rowsSum rows == money (centsTotal rows).
Proof. unfold rowsSum. rewrite rowsSum_from. ring. Qed.

Lemma predictedMeritTax_from (rows : list Row) (acc : Q) :
  fold_left (fun sum row => sum + fixed2 (rowTotal row * VAT_RATE)) rows acc
  == acc + money (centsTax rows).
Proof.
  revert acc. induction rows as [|row rows IH]; intros acc; simpl.
  - rewrite money_zero. ring.
  - rewrite IH. unfold fixed2 at 1.
    rewrite <- (money_plus (toFixed2 (rowTotal row * VAT_RATE))). ring.
Qed.

Lemma predictedMeritTax_money (rows : list Row) :
  predictedMeritTax rows == money (centsTax rows).
Proof. unfold predictedMeritTax. rewrite predictedMeritTax_from. ring. Qed.

(** Sums and differences of two-decimal numbers round to themselves. *)
Lemma fixed2_plus a b : fixed2 (money a + money b) == money (a + b).
Proof. rewrite money_plus. apply fixed2_money. Qed.

Lemma fixed2_minus a b : fixed2 (money a - money b) == money (a - b).
Proof. rewrite money_minus. apply fixed2_money. Qed.

(** The rounding amount closes the gap between the order total and the
    rows total with the predicted tax, whatever the rows are. *)
Lemma rounding_closes (w : Z) (rows : list Row) :
  let exactRowsTotal := fixed2 (rowsSum rows) in
  let calculatedTaxAmount := fixed2 (exactRowsTotal * VAT_RATE) in
  let expectedMeritTotal := fixed2 (exactRowsTotal + calculatedTaxAmount) in
  let roundingAmount := fixed2 (money w - expectedMeritTotal) in
  let predictedMeritTaxRounded := fixed2 (predictedMeritTax rows) in
  let taxDifference := fixed2 (predictedMeritTaxRounded - calculatedTaxAmount) in
  exactRowsTotal + predictedMeritTax rows + fixed2 (roundingAmount - taxDifference)
  == money w.
Proof.
  intros exactRowsTotal calculatedTaxAmount expectedMeritTotal roundingAmount
    predictedMeritTaxRounded taxDifference.
  assert (E1 : exactRowsTotal == money (centsTotal rows)).
  { unfold exactRowsTotal. rewrite rowsSum_money. apply fixed2_money. }
  set (c := toFixed2 (exactRowsTotal * VAT_RATE)).
  assert (E2 : calculatedTaxAmount = money c) by reflexivity.
  assert (E3 : expectedMeritTotal == money (centsTotal rows + c)).
  { unfold expectedMeritTotal. rewrite E2, E1. apply fixed2_plus. }
  assert (E4 : roundingAmount == money (w - (centsTotal rows + c))).
  { unfold roundingAmount. rewrite E3. apply fixed2_minus. }
  assert (E5 : predictedMeritTaxRounded == money (centsTax rows)).
  { unfold predictedMeritTaxRounded. rewrite predictedMeritTax_money. apply fixed2_money. }
  assert (E6 : taxDifference == money (centsTax rows - c)).
  { unfold taxDifference. rewrite E5, E2. apply fixed2_minus. }
  rewrite E4, E6, fixed2_minus, E1, predictedMeritTax_money, !money_plus.
  unfold money, Qeq; simpl. ring.
Qed.

End RowFacts.

(** ** The search for the largest row and the adjustment *)

Module AdjustFacts.

Import Money MoneyFacts Text Merit RowFacts.
Local Open Scope Q_scope.

(** Row [i] has a positive product, no row has a larger one, and every
    row before it has a smaller one. *)
Definition first_largest (rows : list Row) (i : nat) : Prop :=
  exists row, nth_error rows i = Some row /\ 0 < rowTotal row /\
    (forall j r, nth_error rows j = Some r -> rowTotal r <= rowTotal row) /\
    (forall j r, (j < i)%nat -> nth_error rows j = Some r -> rowTotal r < rowTotal row).

Definition none_positive (rows : list Row) : Prop :=
  forall j r, nth_error rows j = Some r -> rowTotal r <= 0.

(** Two rows that differ at most in their price. *)
Definition same_but_price (a b : Row) : Prop :=
  Item a = Item b /\ Quantity a = Quantity b /\ DiscountPct a = DiscountPct b /\
  DiscountAmount a = DiscountAmount b /\ TaxId a = TaxId b /\
  LocationCode a = LocationCode b.

Lemma Qlt_bool_iff (a b : Q) : Qlt_bool a b = true <-> a < b.
Proof.
  unfold Qlt_bool. rewrite negb_true_iff. split.
  - intros H. apply Qnot_le_lt. intros C. apply Qle_bool_iff in C. congruence.
  - intros H. destruct (Qle_bool b a) eqn:E; [|reflexivity].
    apply Qle_bool_iff in E. exfalso. apply (Qlt_not_le _ _ H E).
Qed.

Lemma nth_error_snoc {A} (l : list A) (x : A) (j : nat) (r : A) :
  nth_error (l ++ [x]) j = Some r ->
  ((j < List.length l)%nat /\ nth_error l j = Some r) \/ (j = List.length l /\ r = x).
Proof.
  intros H. destruct (Nat.lt_ge_cases j (List.length l)) as [Hj|Hj].
  - left. split; [assumption|]. now rewrite nth_error_app1 in H.
  - right. rewrite nth_error_app2 in H by assumption.
    destruct (j - List.length l)%nat as [|k] eqn:E; simpl in H.
    + split; [lia | congruence].
    + destruct k; discriminate.
Qed.

Lemma largest_scan_snoc (l : list Row) (x : Row) :
  largest_scan (l ++ [x]) = largest_step (largest_scan l) x.
Proof. unfold largest_scan. now rewrite fold_left_app. Qed.

(** What the scan has found after the rows of [rows]. *)
Definition scan_inv (rows : list Row) (st : option nat * Q * nat) : Prop :=
  let '(idx, tot, n) := st in
  n = List.length rows /\
  match idx with
  | None => tot = 0 /\ none_positive rows
  | Some i => first_largest rows i /\
              exists row, nth_error rows i = Some row /\ tot = rowTotal row
  end.

Lemma largest_scan_inv (rows : list Row) : scan_inv rows (largest_scan rows).
Proof.
  induction rows as [|x l IH] using rev_ind.
  - simpl. split; [reflexivity|]. split; [reflexivity|].
    intros j r H. destruct j; discriminate.
  - rewrite largest_scan_snoc.
    destruct (largest_scan l) as [[idx tot] n]. simpl in IH.
    destruct IH as [Hn IH]. unfold largest_step.
    destruct (Qlt_bool tot (rowTotal x)) eqn:E.
    + (* the new row becomes the largest *)
      apply Qlt_bool_iff in E. simpl. rewrite length_app. simpl.
      split; [lia|]. subst n.
      assert (Hx : nth_error (l ++ [x]) (List.length l) = Some x).
      { rewrite nth_error_app2 by lia. now rewrite Nat.sub_diag. }
      assert (Hle : forall j r, nth_error l j = Some r -> rowTotal r <= tot /\ 0 <= tot).
      { destruct idx as [i|].
        - destruct IH as [(row & Hrow & Hpos & Hmax & _) (row' & Hrow' & Htot)].
          assert (row' = row) by congruence. subst row'. subst tot.
          intros j r Hj. split; [eauto | lra].
        - destruct IH as [Htot Hnone]. subst tot.
          intros j r Hj. split; [eauto | lra]. }
      assert (Hpos : 0 < rowTotal x).
      { destruct idx as [i|].
        - destruct IH as [(row & Hrow & Hpos & _) (row' & Hrow' & Htot)].
          assert (row' = row) by congruence. subst. lra.
        - destruct IH as [Htot _]. subst tot. assumption. }
      split.
      * exists x. repeat split; try assumption.
        -- intros j r Hj. apply nth_error_snoc in Hj.
           destruct Hj as [[_ Hj]|[_ ->]]; [|lra].
           destruct (Hle j r Hj). lra.
        -- intros j r Hlt Hj. apply nth_error_snoc in Hj.
           destruct Hj as [[_ Hj]|[Hj _]]; [|lia].
           destruct (Hle j r Hj). lra.
      * exists x. split; [assumption | reflexivity].
    + (* the largest row so far stays *)
      assert (Hge : rowTotal x <= tot).
      { apply Qnot_lt_le. intros C. apply Qlt_bool_iff in C. congruence. }
      simpl. rewrite length_app. simpl. split; [lia|].
      destruct idx as [i|].
      * destruct IH as [(row & Hrow & Hpos & Hmax & Hfirst) (row' & Hrow' & Htot)].
        assert (row' = row) by congruence. subst row'. subst tot.
        assert (Hi : (i < List.length l)%nat) by (apply nth_error_Some; congruence).
        assert (Hrow2 : nth_error (l ++ [x]) i = Some row)
          by (rewrite nth_error_app1; assumption).
        split.
        -- exists row. repeat split; try assumption.
           ++ intros j r Hj. apply nth_error_snoc in Hj.
              destruct Hj as [[_ Hj]|[_ ->]]; [eauto | assumption].
           ++ intros j r Hlt Hj. apply nth_error_snoc in Hj.
              destruct Hj as [[_ Hj]|[Hj _]]; [eauto | lia].
        -- exists row. split; [assumption | reflexivity].
      * destruct IH as [Htot Hnone]. subst tot. split; [reflexivity|].
        intros j r Hj. apply nth_error_snoc in Hj.
        destruct Hj as [[_ Hj]|[_ ->]]; [eauto | assumption].
Qed.

Lemma largestItemIndex_Some (rows : list Row) (i : nat) :
  largestItemIndex rows = Some i -> first_largest rows i.
Proof.
  unfold largestItemIndex. pose proof (largest_scan_inv rows) as H.
  destruct (largest_scan rows) as [[idx tot] n]. simpl in *.
  intros ->. tauto.
Qed.

Lemma largestItemIndex_None (rows : list Row) :
  largestItemIndex rows = None -> none_positive rows.
Proof.
  unfold largestItemIndex. pose proof (largest_scan_inv rows) as H.
  destruct (largest_scan rows) as [[idx tot] n]. simpl in *.
  intros ->. tauto.
Qed.

Lemma first_largest_unique (rows : list Row) (i k : nat) :
  first_largest rows i -> first_largest rows k -> i = k.
Proof.
  intros (ri & Hi & _ & Hmaxi & Hfi) (rk & Hk & _ & Hmaxk & Hfk).
  destruct (Nat.lt_trichotomy i k) as [H|[H|H]]; [|assumption|].
  - pose proof (Hfk i ri H Hi). pose proof (Hmaxi k rk Hk). lra.
  - pose proof (Hfi k rk H Hk). pose proof (Hmaxk i ri Hi). lra.
Qed.

Lemma first_largest_found (rows : list Row) (i : nat) :
  first_largest rows i -> largestItemIndex rows = Some i.
Proof.
  intros H. destruct (largestItemIndex rows) as [k|] eqn:E.
  - f_equal. eapply first_largest_unique; [|exact H].
    now apply largestItemIndex_Some.
  - apply largestItemIndex_None in E.
    destruct H as (row & Hrow & Hpos & _). specialize (E i row Hrow). lra.
Qed.

Lemma setPrice_length (i : nat) (p : Z) (rows : list Row) :
  List.length (setPrice i p rows) = List.length rows.
Proof.
  revert i. induction rows as [|r rows IH]; intros [|i]; simpl; auto.
Qed.

Lemma setPrice_same (i : nat) (p : Z) (rows : list Row) (row : Row) :
  nth_error rows i = Some row ->
  nth_error (setPrice i p rows) i = Some (withPrice row p).
Proof.
  revert i. induction rows as [|r rows IH]; intros [|i]; simpl; try discriminate.
  - now intros [= ->].
  - apply IH.
Qed.

Lemma setPrice_other (i j : nat) (p : Z) (rows : list Row) :
  i <> j -> nth_error (setPrice i p rows) j = nth_error rows j.
Proof.
  revert i j. induction rows as [|r rows IH]; intros [|i] [|j] H; simpl;
    try reflexivity; try congruence.
  apply IH. congruence.
Qed.

Lemma same_but_price_refl (row : Row) : same_but_price row row.
Proof. repeat split. Qed.

Lemma same_but_price_withPrice (row : Row) (p : Z) : same_but_price row (withPrice row p).
Proof. repeat split. Qed.

End AdjustFacts.

(** ** Sample orders *)

Module Samples.

Import Money Text Merit.
Local Open Scope string_scope.

Definition config0 : Config :=
  {| merit_vatTaxId := None; woocommerce_webhookSecret := None |}.

Definition env0 : Env :=
  {| docDate := "20250301120000"; dueDateFormatted := "20250308120000";
     recentInvoices := Invoices ["1001"; "A-7"; "1010"]; now := 1740830400123%N |}.

Definition billing0 : Billing :=
  {| first_name := "Malle"; last_name := "Tammekivi"; address_1 := EmptyString;
     city := "Tartu"; country := EmptyString; postcode := EmptyString; email := EmptyString; phone := EmptyString |}.

Definition order_of (t : Q) (pit : bool) (items : list LineItem) : WooOrder :=
  {| id := "1736"; currency := "EUR"; order_total := Some t;
     prices_include_tax := pit; line_items := items;
     shipping_lines := []; coupon_lines := []; billing := Some billing0 |}.

(** One bundle with total 9.99 of which 1.80 is tax: 8.19 before tax. *)
Definition bundle_819 : LineItem :=
  {| name := "Toataimede Uus Algus"; sku := EmptyString; product_id := 0; quantity := 1;
     total := Some (999 # 100); total_tax := Some (180 # 100);
     subtotal := None; subtotal_tax := None; price := None |}.

(** A bundle with no price field at all: the campaign price. *)
Definition bundle_default (q : Z) : LineItem :=
  {| name := "Toataimede Uus Algus"; sku := EmptyString; product_id := 0; quantity := q;
     total := None; total_tax := None;
     subtotal := None; subtotal_tax := None; price := None |}.

(** A regular item that carries only a unit price. *)
Definition priced_item (p : Q) : LineItem :=
  {| name := "Vertikaalne taimekast"; sku := EmptyString; product_id := 0; quantity := 1;
     total := None; total_tax := None;
     subtotal := None; subtotal_tax := None; price := Some p |}.

(** A regular item with no price field: its row has price 0. *)
Definition unpriced_item : LineItem :=
  {| name := "Vertikaalne taimekast"; sku := EmptyString; product_id := 0; quantity := 1;
     total := None; total_tax := None;
     subtotal := None; subtotal_tax := None; price := None |}.

(** The row of [priced_item (511 # 100)] in an order without tax in its
    prices. *)
Definition row_511 : Row :=
  {| Item := {| Code := "4744278010038"; Description := "Vertikaalne taimekast";
                Type_ := 3; UOMName := "tk" |};
     Quantity := 1; Price := 511; DiscountPct := 0; DiscountAmount := 0;
     TaxId := getVATTaxId config0; LocationCode := 1 |}.

End Samples.

(** ** The invoice pipeline *)

Section Pipeline.

Import Money MoneyFacts Text Merit RowFacts AdjustFacts Samples.
Local Open Scope Q_scope.





(** The fields of a row that do not depend on the line it stands for. *)
Definition fixed_fields (vatTaxId : string) (row : Row) : Prop :=
  DiscountPct row = 0%Z /\ DiscountAmount row = 0%Z /\ TaxId row = vatTaxId /\
  LocationCode row = 1%Z /\ Type_ (Item row) = 3%Z.

Lemma itemRows_fixed (vatTaxId : string) (pit : bool) (item : LineItem) :
  Forall (fixed_fields vatTaxId) (itemRows vatTaxId pit item).
Proof.
  unfold itemRows. destruct (String.eqb _ _).
  - unfold bundleRows. destruct (replacementPrices _ _).
    repeat constructor.
  - repeat constructor.
Qed.

Lemma shippingRows_fixed (vatTaxId : string) (pit : bool) (shipping : ShippingLine) :
  Forall (fixed_fields vatTaxId) (shippingRows vatTaxId pit shipping).
Proof.
  unfold shippingRows. destruct (_ <=? _)%Z; repeat constructor.
Qed.

Lemma couponRows_fixed (vatTaxId : string) (pit : bool) (coupon : CouponLine) :
  Forall (fixed_fields vatTaxId) (couponRows vatTaxId pit coupon).
Proof.
  unfold couponRows. destruct (Qle_bool _ _); repeat constructor.
Qed.

Lemma couponRows_nonpos (vatTaxId : string) (pit : bool) (coupon : CouponLine) :
  Forall (fun row => (Price row <= 0)%Z) (couponRows vatTaxId pit coupon).
Proof.
  unfold couponRows. destruct (Qle_bool _ _); constructor; [|constructor].
  simpl. apply toFixed2_nonpos.
  match goal with |- - Qabs ?d <= 0 => pose proof (Qabs_nonneg d) end. lra.
Qed.

(** C9.  Every row the normalizer emits, for a product, a bundle
    constituent, shipping or a discount, has discount percentage 0,
    discount amount 0, the configured VAT tax id, location code 1 and item
    type 3; a discount is a row whose price is not positive. *)
Theorem rows_fixed_fields (config : Config) (wooOrder : WooOrder) :
  Forall (fixed_fields (getVATTaxId config))
    (prepareInvoiceRowsFromWooOrder config wooOrder) /\
  Forall (fun row => (Price row <= 0)%Z)
    (flat_map (couponRows (getVATTaxId config) (prices_include_tax wooOrder))
       (coupon_lines wooOrder)).
Proof.
  unfold prepareInvoiceRowsFromWooOrder. split.
  - rewrite !Forall_app. repeat split; apply Forall_flat_map, Forall_forall; intros.
    + apply itemRows_fixed.
    + apply shippingRows_fixed.
    + apply couponRows_fixed.
  - apply Forall_flat_map, Forall_forall. intros. apply couponRows_nonpos.
Qed.




Lemma adjustRows_nil (wooTotal : Q) : adjustRows wooTotal [] = [].
Proof. unfold adjustRows. now destruct (negb _). Qed.

(** C5, as the code has it.  An order whose total is not a number or is
    not positive at two decimals is refused, with or without rows.  An
    order with a positive total that produces no rows is handed over all
    the same: no row, rows total 0, tax amount 0, and the whole order total
    as rounding amount. *)
Theorem no_rows_outcome (config : Config) (env : Env) (wooOrder : WooOrder) :
  (order_total wooOrder = None ->
   createInvoiceFromWooCommerceOrder config env wooOrder = Failed InvalidOrderTotal) /\
  (forall T, order_total wooOrder = Some T -> fixed2 T <= 0 ->
   createInvoiceFromWooCommerceOrder config env wooOrder = Failed InvalidOrderTotal) /\
  (forall T b,
     prepareInvoiceRowsFromWooOrder config wooOrder = [] ->
     order_total wooOrder = Some T -> 0 < fixed2 T -> billing wooOrder = Some b ->
     exists inv,
       createInvoiceFromWooCommerceOrder config env wooOrder = Submitted inv /\
       InvoiceRow inv = [] /\
       TotalAmount inv == 0 /\
       Forall (fun e => Amount e == 0) (TaxAmount inv) /\
       RoundingAmount inv == fixed2 T).
Proof.
  unfold createInvoiceFromWooCommerceOrder. split; [|split].
  - now intros ->.
  - intros T -> H. apply Qle_bool_iff in H. now rewrite H.
  - intros T b Hrows -> Hpos ->. rewrite Hrows, adjustRows_nil.
    destruct (Qle_bool (fixed2 T) 0) eqn:E.
    { apply Qle_bool_iff in E. lra. }
    eexists. split; [reflexivity|]. simpl.
    split; [reflexivity|]. split; [reflexivity|].
    split; [repeat constructor|].
    pose proof (rounding_closes (toFixed2 T) []) as H. cbv zeta in H.
    assert (E1 : fixed2 (rowsSum []) == 0) by reflexivity.
    assert (E2 : predictedMeritTax [] == 0) by reflexivity.
    fold (fixed2 T) in H. lra.
Qed.

Lemma no_rows_outcome_witness :
  exists inv,
    createInvoiceFromWooCommerceOrder config0 env0 (order_of (5 # 1) false [])
    = Submitted inv /\
    InvoiceRow inv = [] /\
    TotalAmount inv == 0 /\
    Forall (fun e => Amount e == 0) (TaxAmount inv) /\
    RoundingAmount inv == fixed2 (5 # 1).
Proof.
  destruct (no_rows_outcome config0 env0 (order_of (5 # 1) false [])) as (_ & _ & H).
  apply (H (5 # 1) billing0).
  - reflexivity.
  - reflexivity.
  - vm_compute. reflexivity.
  - reflexivity.
Defined.

(** C5 is not what the code does: an order of 5.00 without rows gives an
    invoice whose rounding amount is 5.00, and an order of 0.00 without
    rows is refused. *)
Lemma no_rows_counterexample :
  (exists inv,
     createInvoiceFromWooCommerceOrder config0 env0 (order_of (5 # 1) false [])
     = Submitted inv /\
     InvoiceRow inv = [] /\ ~ RoundingAmount inv == 0) /\
  createInvoiceFromWooCommerceOrder config0 env0 (order_of 0 false [])
  = Failed InvalidOrderTotal.
Proof.
  split; [|reflexivity].
  eexists. split; [reflexivity|]. split; [reflexivity|].
  vm_compute. discriminate.
Qed.

(** C2 at an order the code does not conserve.  A bundle of quantity 1
    with total 9.99 of which 1.80 is tax is worth 8.19 before tax; the
    discounted prices are 1.21 and 1.68, the difference -0.01 gives the
    soil adjustment 0.00, and the two rows add up to 8.20. *)
Theorem bundle_total_not_conserved :
  let rows := prepareInvoiceRowsFromWooOrder config0
                (order_of (999 # 100) true [bundle_819]) in
  bundleTotalPrice true bundle_819 == 819 # 100 /\
  map (fun row => (Quantity row, Price row)) rows = [(4, 121); (2, 168)]%Z /\
  rowsSum rows == 820 # 100 /\
  ~ rowsSum rows == bundleTotalPrice true bundle_819.
Proof.
  cbv zeta. repeat split; try (vm_compute; reflexivity).
  vm_compute. discriminate.
Qed.

(** At the campaign price of 8.20 per bundle the expansion is exact for
    every positive quantity: the prices are 1.21 and 1.68 and nothing is
    left to correct. *)
Lemma replacementPrices_campaign (q : Z) :
  (0 < q)%Z ->
  let (finalSoilPrice, finalConcentratePrice) :=
    replacementPrices ((820 # 100) * inject_Z q) q in
  toFixed2 finalSoilPrice = 121%Z /\ toFixed2 finalConcentratePrice = 168%Z.
Proof.
  intros Hq.
  assert (Hq0 : ~ inject_Z q == 0).
  { unfold Qeq, inject_Z; simpl. lia. }
  unfold replacementPrices.
  set (total := inject_Z (4 * q) * soilRetailPrice
                + inject_Z (2 * q) * concentrateRetailPrice).
  set (f := (820 # 100) * inject_Z q / total).
  assert (Hs : soilRetailPrice * f == (215 # 100) * (820 # 1458)).
  { unfold f, total, soilRetailPrice, concentrateRetailPrice.
    rewrite !inject_Z_mult. field.
    intros C. apply Hq0. lra. }
  assert (Hc : concentrateRetailPrice * f == (299 # 100) * (820 # 1458)).
  { unfold f, total, soilRetailPrice, concentrateRetailPrice.
    rewrite !inject_Z_mult. field.
    intros C. apply Hq0. lra. }
  assert (Es : fixed2 (soilRetailPrice * f) == money 121).
  { rewrite Hs. reflexivity. }
  assert (Ec : fixed2 (concentrateRetailPrice * f) == money 168).
  { rewrite Hc. reflexivity. }
  assert (Ed : fixed2 ((820 # 100) * inject_Z q
                       - (fixed2 (fixed2 (soilRetailPrice * f) * inject_Z (4 * q))
                          + fixed2 (fixed2 (concentrateRetailPrice * f) * inject_Z (2 * q))))
               == 0).
  { rewrite Es, Ec, !money_scale, !fixed2_money, money_plus.
    change (820 # 100) with (money 820). rewrite money_scale, fixed2_minus.
    replace (820 * q - (121 * (4 * q) + 168 * (2 * q)))%Z with 0%Z by ring.
    reflexivity. }
  apply Qeq_bool_iff in Ed. rewrite Ed. simpl.
  split.
  - unfold fixed2 at 1. rewrite toFixed2_money, Hs. reflexivity.
  - unfold fixed2 at 1. rewrite toFixed2_money, Hc. reflexivity.
Qed.

Lemma bundle_campaign_conserved (vatTaxId : string) (pit : bool) (q : Z) :
  (0 < q)%Z ->
  rowsSum (bundleRows vatTaxId pit (bundle_default q))
  == bundleTotalPrice pit (bundle_default q).
Proof.
  intros Hq. unfold bundleRows.
  change (bundleTotalPrice pit (bundle_default q)) with ((820 # 100) * inject_Z q).
  change (quantity (bundle_default q)) with q.
  pose proof (replacementPrices_campaign q Hq) as H.
  destruct (replacementPrices ((820 # 100) * inject_Z q) q) as [a b].
  cbn [map rep_code rep_description rep_unit rep_quantity rep_price].
  destruct H as [-> ->].
  rewrite rowsSum_money.
  change (820 # 100) with (money 820). rewrite money_scale.
  match goal with
  | |- money ?a == money ?b => replace a with b; [reflexivity|]
  end.
  unfold centsTotal; cbn [fold_right Price Quantity]. ring.
Qed.

End Pipeline.

(** ** The invoice comment *)

Module TextFacts.

Import Text.
Local Open Scope string_scope.

Lemma is_digit_not_newline (c : ascii) : is_digit c = true -> Ascii.eqb c "010" = false.
Proof.
  intros H. destruct (Ascii.eqb_spec c "010") as [->|]; [discriminate H | reflexivity].
Qed.

Lemma all_digits_no_newline (s : string) : all_digits s = true -> has_newline s = false.
Proof.
  induction s as [|c s IH]; simpl; [reflexivity|].
  intros H. apply andb_true_iff in H as [Hc Hs].
  now rewrite (is_digit_not_newline c Hc), IH.
Qed.

(** The digits of [d] are read up to a line feed that follows them. *)
Lemma span_digits (d rest : string) :
  all_digits d = true ->
  span is_digit (d ++ String "010" rest) = (d, String "010" rest).
Proof.
  induction d as [|c d IH]; simpl; [reflexivity|].
  intros H. apply andb_true_iff in H as [Hc Hd].
  now rewrite Hc, (IH Hd).
Qed.

Lemma split_nl_single (s : string) : has_newline s = false -> split_nl s = [s].
Proof.
  induction s as [|c s IH]; simpl; [reflexivity|].
  intros H. apply orb_false_iff in H as [Hc Hs].
  now rewrite Hc, (IH Hs).
Qed.

Lemma split_nl_nonempty (s : string) : split_nl s <> [].
Proof.
  induction s as [|c s IH]; simpl; [discriminate|].
  destruct (Ascii.eqb c "010"); [discriminate|].
  destruct (split_nl s); [contradiction | discriminate].
Qed.

Lemma split_nl_line (a b : string) :
  has_newline a = false -> split_nl (a ++ String "010" b) = a :: split_nl b.
Proof.
  induction a as [|c a IH]; simpl; [reflexivity|].
  intros H. apply orb_false_iff in H as [Hc Ha].
  now rewrite Hc, (IH Ha).
Qed.

(** Decimal texts: what [toString] writes, [parseInt] reads back. *)
Definition digits_from (acc : N) (s : string) : N :=
  fold_left (fun acc c => (acc * 10 + digit_value c)%N) (list_ascii_of_string s) acc.

Lemma digits_from_pos (d : Decimal.uint) (p : positive) :
  digits_from (Npos p) (NilEmpty.string_of_uint d) = Npos (Pos.of_uint_acc d p).
Proof.
  revert p. unfold digits_from.
  induction d; intros p;
    cbn [NilEmpty.string_of_uint list_ascii_of_string fold_left Pos.of_uint_acc];
    try reflexivity;
    rewrite <- IHd; f_equal;
    match goal with
    | |- context [digit_value ?c] =>
        let v := eval vm_compute in (digit_value c) in
        change (digit_value c) with v
    end; lia.
Qed.

Lemma digits_from_zero (d : Decimal.uint) :
  digits_from 0 (NilEmpty.string_of_uint d) = Pos.of_uint d.
Proof.
  induction d;
    cbn [NilEmpty.string_of_uint Pos.of_uint];
    try reflexivity; try exact IHd;
    apply (digits_from_pos d).
Qed.

Lemma parseInt10_toString (n : N) : parseInt10 (N_toString n) = n.
Proof.
  unfold parseInt10, N_toString.
  change (digits_from 0 (NilEmpty.string_of_uint (N.to_uint n)) = n).
  rewrite digits_from_zero. apply DecimalN.Unsigned.of_to.
Qed.

Lemma string_of_uint_digits (d : Decimal.uint) :
  all_digits (NilEmpty.string_of_uint d) = true.
Proof. induction d; simpl; auto. Qed.

Lemma toString_numeric (n : N) : is_numeric (N_toString n) = true.
Proof.
  unfold is_numeric, N_toString. rewrite string_of_uint_digits, andb_true_r.
  destruct n as [|p]; [reflexivity|]. simpl.
  pose proof (DecimalPos.Unsigned.to_uint_nonnil p) as H.
  destruct (Pos.to_uint p); [congruence | reflexivity ..].
Qed.

End TextFacts.

Section Comment.

Import Text TextFacts Merit Samples.
Local Open Scope string_scope.

(** C6.  For an order id made of digits and a customer name without a
    line feed, the comment ["Ussimo \n#<orderId>\n<customerName>"] gives
    back the order id and the customer name, trimmed. *)
Theorem comment_round_trip (orderId customerName : string) :
  is_numeric orderId = true -> has_newline customerName = false ->
  extractOrderNumberFromHComment (hComment orderId customerName) = Some orderId /\
  extractCustomerNameFromHComment (hComment orderId customerName)
  = Some (trim customerName).
Proof.
  intros Hid Hname. unfold is_numeric in Hid.
  apply andb_true_iff in Hid as [Hne Hdig]. split.
  - unfold extractOrderNumberFromHComment, hComment. simpl.
    rewrite (span_digits orderId customerName Hdig). simpl.
    destruct orderId; [discriminate Hne | reflexivity].
  - unfold extractCustomerNameFromHComment, hComment. simpl.
    rewrite (split_nl_line orderId customerName (all_digits_no_newline _ Hdig)).
    rewrite (split_nl_single customerName Hname). reflexivity.
Qed.

Lemma comment_round_trip_witness :
  extractOrderNumberFromHComment (hComment "1736" "Malle Tammekivi ") = Some "1736" /\
  extractCustomerNameFromHComment (hComment "1736" "Malle Tammekivi ")
  = Some "Malle Tammekivi".
Proof.
  apply (comment_round_trip "1736" "Malle Tammekivi "); reflexivity.
Defined.

(** The comment of an invoice is made this way from the order id and the
    two names of the billing data. *)
Lemma invoice_comment (config : Config) (env : Env) (wooOrder : WooOrder) (inv : Invoice) :
  createInvoiceFromWooCommerceOrder config env wooOrder = Submitted inv ->
  exists b, billing wooOrder = Some b /\
    HComment inv = hComment (id wooOrder) (first_name b ++ " " ++ last_name b).
Proof.
  unfold createInvoiceFromWooCommerceOrder.
  destruct (order_total wooOrder); [|discriminate].
  destruct (Qle_bool _ _); [discriminate|].
  destruct (billing wooOrder) as [b|]; [|discriminate].
  intros [= <-]. exists b. split; reflexivity.
Qed.

End Comment.

(** ** Invoice numbers *)

Section Numbering.

Import Text Merit.
Local Open Scope string_scope.

Lemma maxN_ge (l : list N) (n : N) : In n l -> (n <= maxN l)%N.
Proof.
  induction l as [|x l IH]; simpl; [contradiction|].
  intros [->|H]; [lia | specialize (IH H); lia].
Qed.

Lemma maxN_in (l : list N) : l <> [] -> In (maxN l) l.
Proof.
  induction l as [|x l IH]; [congruence|]. intros _. simpl.
  destruct l as [|y l].
  - left. simpl. lia.
  - destruct (N.max_spec x (maxN (y :: l))) as [[_ E]|[_ E]]; rewrite E.
    + right. apply IH. discriminate.
    + now left.
Qed.



(** When every invoice of the window carries the decimal text of a
    number, the next number is the text of the largest plus one. *)
Lemma next_after_numbers (numbers : list N) (now : N) :
  numbers <> [] ->
  getNextInvoiceNumber (Invoices (map N_toString numbers)) now
  = N_toString (maxN numbers + 1).
Proof.
  intros Hne.
  assert (Hf : filter is_numeric (map N_toString numbers) = map N_toString numbers).
  { clear Hne. induction numbers as [|n l IH]; simpl; [reflexivity|].
    now rewrite TextFacts.toString_numeric, IH. }
  assert (Hm : map parseInt10 (map N_toString numbers) = numbers).
  { clear Hne Hf. induction numbers as [|n l IH]; simpl; [reflexivity|].
    now rewrite TextFacts.parseInt10_toString, IH. }
  unfold getNextInvoiceNumber.
  destruct numbers as [|n l]; [congruence|].
  change (map N_toString (n :: l)) with (N_toString n :: map N_toString l) in *.
  rewrite Hf, Hm. reflexivity.
Qed.

(** The sample window: 1001, a number that is not numeric, and 1010. *)
Example next_invoice_number_sample :
  getNextInvoiceNumber (Invoices ["1001"; "A-7"; "1010"]) 1740830400123 = "1011" /\
  getNextInvoiceNumber (Invoices ["A-7"]) 1740830400123 = "1000" /\
  getNextInvoiceNumber Throws 1740830400123 = "ERR400123".
Proof. repeat split. Qed.

End Numbering.

(** ** The webhook signature *)

Section WebhookChecks.

Import Merit Webhook.

Variable Body : Type.
Variable stringify : Body -> option string.
Variable hmac_sha256_base64 : string -> string -> option string.

(** C10.  Without a configured secret every request is accepted.  With a
    secret, a request is refused when the signature header is missing,
    when the signature differs from the HMAC-SHA256 of the serialized
    body, and when serializing or hashing throws; it is accepted only
    when the signature is that HMAC. *)
Theorem webhook_validation (config : Config) (req : Request Body) :
  (woocommerce_webhookSecret config = None -> validateWooCommerceWebhook Body stringify hmac_sha256_base64 config req = true) /\
  (forall secret, woocommerce_webhookSecret config = Some secret ->
     (signature Body req = None -> validateWooCommerceWebhook Body stringify hmac_sha256_base64 config req = false) /\
     (forall given payload mac,
        signature Body req = Some given ->
        stringify (body Body req) = Some payload ->
        hmac_sha256_base64 secret payload = Some mac ->
        given <> mac -> validateWooCommerceWebhook Body stringify hmac_sha256_base64 config req = false) /\
     (stringify (body Body req) = None -> validateWooCommerceWebhook Body stringify hmac_sha256_base64 config req = false) /\
     (forall payload,
        stringify (body Body req) = Some payload ->
        hmac_sha256_base64 secret payload = None -> validateWooCommerceWebhook Body stringify hmac_sha256_base64 config req = false) /\
     (validateWooCommerceWebhook Body stringify hmac_sha256_base64 config req = true ->
      exists given payload,
        signature Body req = Some given /\
        stringify (body Body req) = Some payload /\
        hmac_sha256_base64 secret payload = Some given)).
Proof.
  unfold validateWooCommerceWebhook. split.
  - now intros ->.
  - intros secret ->. split; [|split; [|split; [|split]]].
    + now intros ->.
    + intros given payload mac -> -> -> Hne. now apply String.eqb_neq.
    + intros ->. now destruct (signature Body req).
    + intros payload -> ->. now destruct (signature Body req).
    + destruct (signature Body req) as [given|]; [|discriminate].
      destruct (stringify (body Body req)) as [payload|]; [|discriminate].
      destruct (hmac_sha256_base64 secret payload) as [mac|] eqn:E; [|discriminate].
      intros H. apply String.eqb_eq in H. subst mac.
      exists given, payload. auto.
Qed.

End WebhookChecks.

Section WebhookSample.

Import Merit Webhook.
Local Open Scope string_scope.

(** A stand-in for the hash, to run the check on a request. *)
Definition toy_hmac (key payload : string) : option string := Some (key ++ ":" ++ payload).

Definition open_config : Config :=
  {| merit_vatTaxId := None; woocommerce_webhookSecret := None |}.

Definition secret_config : Config :=
  {| merit_vatTaxId := None; woocommerce_webhookSecret := Some "s3cret" |}.

Definition forged : Request string := {| signature := Some "forged"; body := "{}" |}.

Lemma webhook_validation_witness :
  validateWooCommerceWebhook string Some toy_hmac open_config forged = true /\
  validateWooCommerceWebhook string Some toy_hmac secret_config forged = false.
Proof.
  split.
  - destruct (webhook_validation string Some toy_hmac open_config forged) as [H _].
    apply H. reflexivity.
  - destruct (webhook_validation string Some toy_hmac secret_config forged) as [_ H].
    destruct (H "s3cret" eq_refl) as (_ & H2 & _).
    apply (H2 "forged" "{}" "s3cret:{}"); try reflexivity. discriminate.
Defined.

End WebhookSample.

(** ** The sync guard *)

Section SyncGuard.

Import Scheduler.

(** A request made while the variable is set returns the skipped outcome
    at once, without a call to a collaborator. *)
Lemma request_while_syncing (fromDate toDate : N) (st : State) :
  isSyncing st = true ->
  syncOrdersToInvoices fromDate toDate st = (finally st, inl Skipped).
Proof. unfold syncOrdersToInvoices. now intros ->. Qed.

(** That request leaves the variable reset. *)
Lemma request_while_syncing_resets (fromDate toDate : N) (st : State) :
  isSyncing st = true ->
  isSyncing (fst (syncOrdersToInvoices fromDate toDate st)) = false.
Proof. intros H. now rewrite request_while_syncing. Qed.

Lemma processOrders_ends_reset (time : N) (orders : list OrderSummary)
    (results : Results) (st st' : State) (res : SyncResult) :
  processOrders time orders results st = (st', inl res) -> isSyncing st' = false.
Proof.
  revert results. induction orders as [|order rest IH]; intros results; simpl.
  - now intros [= <- _].
  - destruct (existsb _ _); [apply IH|].
    destruct (negb _); [apply IH | discriminate].
Qed.

(** A run that ends, by returning or by throwing, leaves the variable
    reset. *)
Lemma run_ends_reset (time : N) (c : Control) (a : Answer) (st st' : State)
    (res : SyncResult) :
  resume time c a st = (st', inl res) -> isSyncing st' = false.
Proof.
  destruct c; simpl; destruct a;
    try (now intros [= <- _]); try discriminate;
    apply processOrders_ends_reset.
Qed.

(** C8 at a trace the guard does not hold.  Three requests are made
    before the first call to the order source settles: the first starts a
    run, the second is skipped and resets the variable, the third starts
    a second run.  Two runs are in flight and the orders are fetched
    twice. *)
Theorem skipped_request_opens_guard :
  let sys := run [Trigger 0 10; Trigger 0 10; Trigger 0 10] in
  returned sys = [Skipped] /\
  inflight sys = [AtGetOrders 0 10; AtGetOrders 0 10] /\
  calls sys = [GetOrders 0 10; GetOrders 0 10] /\
  isSyncing (globals (run [Trigger 0 10; Trigger 0 10])) = false /\
  inflight (run [Trigger 0 10; Trigger 0 10]) = [AtGetOrders 0 10].
Proof. cbv zeta. repeat split. Qed.

End SyncGuard.

(** * Further properties of the invoice pipeline *)

Module AdjustAccuracy.

Import Money MoneyFacts Text Merit RowFacts AdjustFacts Samples.
Local Open Scope Q_scope.

Lemma centsTotal_setPrice (i : nat) (p : Z) (rows : list Row) (row : Row) :
  nth_error rows i = Some row ->
  centsTotal (setPrice i p rows)
  = (centsTotal rows - Price row * Quantity row + p * Quantity row)%Z.
Proof.
  revert i. induction rows as [|r rows IH]; intros [|i]; simpl; try discriminate.
  - intros [= ->]. ring.
  - intros H. rewrite (IH i H). ring.
Qed.

Lemma toFixed2_fixed2 (x : Q) : toFixed2 (fixed2 x) = toFixed2 x.
Proof. unfold fixed2. apply toFixed2_money. Qed.

(** What the adjusted price is, in cents: the quotient of the adjusted
    item total by the quantity, rounded. *)
Lemma adjustedPrice_cents (wooTotal : Q) (rows : list Row) (row : Row) :
  adjustedPrice wooTotal (fixed2 (rowsSum rows)) row
  = toFixed2 (money (Price row * Quantity row
                     + (toFixed2 (wooTotal / (1 + VAT_RATE)) - centsTotal rows))
              / inject_Z (Quantity row)).
Proof.
  unfold adjustedPrice. rewrite toFixed2_fixed2.
  apply toFixed2_Proper.
  assert (E : fixed2 (fixed2 (wooTotal / (1 + VAT_RATE)) - fixed2 (rowsSum rows))
              == money (toFixed2 (wooTotal / (1 + VAT_RATE)) - centsTotal rows)).
  { rewrite (rowsSum_money rows), (fixed2_money (centsTotal rows)).
    unfold fixed2 at 2. apply fixed2_minus. }
  rewrite E, money_scale, fixed2_plus. reflexivity.
Qed.

(** A rounded quotient, multiplied back, is within half a cent per unit. *)
Lemma rounded_quotient_near (a q : Z) :
  (0 < q)%Z ->
  (2 * Z.abs (toFixed2 (money a / inject_Z q) * q - a) <= q)%Z.
Proof.
  intros Hq. unfold toFixed2.
  set (x := money a / inject_Z q * 100).
  destruct (round_half_away_near x) as [Hlo Hhi].
  set (p := round_half_away x) in *.
  assert (Hq0 : 0 < inject_Z q) by (unfold Qlt, inject_Z; simpl; lia).
  assert (Hx : x * inject_Z q == inject_Z a).
  { unfold x, money. 
    assert (Hm : (a # 100) == inject_Z a / 100) by (unfold Qeq, inject_Z; simpl; ring).
    rewrite Hm. field. intros C. rewrite C in Hq0. apply (Qlt_irrefl 0 Hq0). }
  assert (Hd : (inject_Z p - x) * inject_Z q == inject_Z (p * q - a)).
  { unfold Z.sub. rewrite inject_Z_plus, inject_Z_opp, inject_Z_mult, <- Hx. ring. }
  assert (H3 : inject_Z (p * q - a) <= (1 # 2) * inject_Z q).
  { rewrite <- Hd. apply Qmult_le_compat_r; lra. }
  assert (H4 : - ((1 # 2) * inject_Z q) <= inject_Z (p * q - a)).
  { rewrite <- Hd.
    assert (H : (x - inject_Z p) * inject_Z q <= (1 # 2) * inject_Z q)
      by (apply Qmult_le_compat_r; lra).
    assert (Hn : (x - inject_Z p) * inject_Z q == - ((inject_Z p - x) * inject_Z q)) by ring.
    rewrite Hn in H. lra. }
  clearbody p. clear Hlo Hhi Hd Hx. clearbody x.
  unfold Qle, Qmult, Qopp, inject_Z in H3, H4.
  cbn [Qnum Qden] in H3, H4. rewrite ?Z.mul_1_l in H3, H4. lia.
Qed.

Lemma adjustRows_cents (wooTotal : Q) (rows : list Row) (i : nat) (row : Row) :
  ~ totalDifference wooTotal rows == 0 ->
  largestItemIndex rows = Some i -> nth_error rows i = Some row ->
  centsTotal (adjustRows wooTotal rows)
  = (centsTotal rows - Price row * Quantity row
     + adjustedPrice wooTotal (fixed2 (rowsSum rows)) row * Quantity row)%Z.
Proof.
  intros Hd Hi Hrow. unfold adjustRows.
  destruct (Qeq_bool (totalDifference wooTotal rows) 0) eqn:E.
  { apply Qeq_bool_iff in E. contradiction. }
  simpl. rewrite Hi, Hrow. now apply centsTotal_setPrice.
Qed.

(** The rows total after the adjustment against the target, in cents. *)
Lemma adjusted_cents_near (wooTotal : Q) (rows : list Row) (i : nat) (row : Row) :
  ~ totalDifference wooTotal rows == 0 ->
  largestItemIndex rows = Some i -> nth_error rows i = Some row ->
  (0 < Quantity row)%Z ->
  (2 * Z.abs (centsTotal (adjustRows wooTotal rows)
              - toFixed2 (wooTotal / (1 + VAT_RATE))) <= Quantity row)%Z.
Proof.
  intros Hd Hi Hrow Hq.
  set (t := toFixed2 (wooTotal / (1 + VAT_RATE))).
  set (a := (Price row * Quantity row + (t - centsTotal rows))%Z).
  assert (Hc : (centsTotal (adjustRows wooTotal rows) - t
                = toFixed2 (money a / inject_Z (Quantity row)) * Quantity row - a)%Z).
  { rewrite (adjustRows_cents _ _ _ _ Hd Hi Hrow), adjustedPrice_cents.
    fold t. fold a. unfold a. ring. }
  rewrite Hc. now apply rounded_quotient_near.
Qed.

Lemma rowsSum_minus_target (wooTotal : Q) (rows : list Row) :
  rowsSum rows - fixed2 (wooTotal / (1 + VAT_RATE))
  == money (centsTotal rows - toFixed2 (wooTotal / (1 + VAT_RATE))).
Proof. rewrite rowsSum_money. unfold fixed2. apply money_minus. Qed.

Lemma adjusted_total_exact (wooTotal : Q) (rows : list Row) (i : nat) (row : Row) :
  ~ totalDifference wooTotal rows == 0 ->
  largestItemIndex rows = Some i -> nth_error rows i = Some row ->
  Quantity row = 1%Z ->
  rowsSum (adjustRows wooTotal rows) == fixed2 (wooTotal / (1 + VAT_RATE)).
Proof.
  intros Hd Hi Hrow H1.
  assert (Hq : (0 < Quantity row)%Z) by lia.
  pose proof (adjusted_cents_near _ _ _ _ Hd Hi Hrow Hq) as Hb. rewrite H1 in Hb.
  pose proof (rowsSum_minus_target wooTotal (adjustRows wooTotal rows)) as Hs.
  replace (centsTotal (adjustRows wooTotal rows) - toFixed2 (wooTotal / (1 + VAT_RATE)))%Z
    with 0%Z in Hs by lia.
  change (money 0) with (0 # 100) in Hs.
  assert (Hz : (0 # 100) == 0) by reflexivity. rewrite Hz in Hs. clear - Hs. lra.
Qed.



(** Rows that total the order total divided by 1.22 leave at most one
    cent between the order total and the rows total with 22% tax. *)
Lemma target_total_near (w : Z) (rows : list Row) :
  rowsSum rows == fixed2 (money w / (1 + VAT_RATE)) ->
  Qabs (totalDifference (money w) rows) <= 1 # 100.
Proof.
  intros Hrows. unfold totalDifference.
  set (t := toFixed2 (money w / (1 + VAT_RATE))) in *.
  assert (Et : fixed2 (rowsSum rows) == money t).
  { rewrite Hrows. unfold fixed2 at 2. fold t. apply fixed2_money. }
  set (c := toFixed2 (fixed2 (rowsSum rows) * VAT_RATE)).
  assert (Ed : fixed2 (money w - fixed2 (fixed2 (rowsSum rows)
                                          + fixed2 (fixed2 (rowsSum rows) * VAT_RATE)))
               == money (w - (t + c))).
  { unfold fixed2 at 4. fold c. rewrite Et, fixed2_plus. apply fixed2_minus. }
  rewrite Ed.
  (* the two roundings *)
  assert (Ht : money w / (1 + VAT_RATE) * 100 - (1 # 2) <= inject_Z t
               <= money w / (1 + VAT_RATE) * 100 + (1 # 2))
    by apply round_half_away_near.
  assert (Hc : fixed2 (rowsSum rows) * VAT_RATE * 100 - (1 # 2) <= inject_Z c
               <= fixed2 (rowsSum rows) * VAT_RATE * 100 + (1 # 2))
    by apply round_half_away_near.
  rewrite Et in Hc.
  assert (E1 : money w / (1 + VAT_RATE) * 100 == inject_Z w * (100 # 122)).
  { unfold money, VAT_RATE, Qeq, Qdiv, Qmult, Qplus, Qinv, inject_Z. simpl. ring. }
  assert (E2 : money t * VAT_RATE * 100 == inject_Z t * (22 # 100)).
  { unfold money, VAT_RATE, Qeq, Qmult, inject_Z. simpl. ring. }
  rewrite E1 in Ht. rewrite E2 in Hc.
  assert (Hb : - (2 # 1) < inject_Z (w - (t + c)) < 2 # 1).
  { unfold Z.sub. rewrite inject_Z_plus, inject_Z_opp, inject_Z_plus. lra. }
  destruct Hb as [Hb1 Hb2].
  unfold Qlt, inject_Z in Hb1, Hb2. cbn [Qnum Qden Qopp] in Hb1, Hb2.
  apply Qabs_Qle_condition. unfold money, Qle, Qopp. cbn [Qnum Qden]. split; lia.
Qed.



End AdjustAccuracy.

Module RowProperties.

Import Money MoneyFacts Text TextFacts Merit RowFacts AdjustFacts Samples.
Local Open Scope Q_scope.

(** A unit price obtained by dividing by the quantity and rounding gives
    back the amount within half a cent per unit. *)
Lemma rounded_unit_price_near (x : Q) (q : Z) :
  (0 < q)%Z ->
  Qabs (money (toFixed2 (x / inject_Z q)) * inject_Z q - x) <= inject_Z q * (1 # 200).
Proof.
  intros Hq. unfold toFixed2.
  set (y := x / inject_Z q * 100).
  destruct (round_half_away_near y) as [Hlo Hhi].
  set (p := round_half_away y) in *.
  assert (Hq0 : 0 < inject_Z q) by (unfold Qlt, inject_Z; simpl; lia).
  assert (Hy : y * inject_Z q == x * 100).
  { unfold y. field. intros C. rewrite C in Hq0. apply (Qlt_irrefl 0 Hq0). }
  assert (Hm : money p * inject_Z q - x == (inject_Z p - y) * inject_Z q * (1 # 100)).
  { assert (E : money p == inject_Z p * (1 # 100))
      by (unfold money, Qeq, Qmult, inject_Z; simpl; ring).
    rewrite E.
    assert (E2 : (inject_Z p - y) * inject_Z q * (1 # 100)
                 == inject_Z p * inject_Z q * (1 # 100) - (y * inject_Z q) * (1 # 100)) by ring.
    rewrite E2, Hy. ring. }
  rewrite Hm.
  assert (H1 : (inject_Z p - y) * inject_Z q <= (1 # 2) * inject_Z q)
    by (apply Qmult_le_compat_r; lra).
  assert (H2 : (y - inject_Z p) * inject_Z q <= (1 # 2) * inject_Z q)
    by (apply Qmult_le_compat_r; lra).
  assert (Hn : (y - inject_Z p) * inject_Z q == - ((inject_Z p - y) * inject_Z q)) by ring.
  rewrite Hn in H2.
  set (z := (inject_Z p - y) * inject_Z q) in *. clearbody z.
  set (iq := inject_Z q) in *. clearbody iq. clear - H1 H2.
  apply Qabs_Qle_condition. split; lra.
Qed.

(** The pre-tax subtotal a regular item is priced from. *)
Definition pretaxSubtotal (pricesIncludeTax : bool) (s : Q) (item : LineItem) : Q :=
  match subtotal_tax item with
  | Some subtotalTax => if pricesIncludeTax then s - subtotalTax else s
  | None => s
  end.

(** X3.  A regular item with a subtotal and a positive quantity [q] gets
    a unit price whose product with [q] is within [q] half cents of the
    subtotal, less its tax when the prices include tax. *)
Theorem regular_price_accuracy (pricesIncludeTax : bool) (item : LineItem) (s : Q) :
  subtotal item = Some s -> (0 < quantity item)%Z ->
  Qabs (money (regularPrice pricesIncludeTax item) * inject_Z (quantity item)
        - pretaxSubtotal pricesIncludeTax s item)
  <= inject_Z (quantity item) * (1 # 200).
Proof.
  intros Hs Hq. unfold regularPrice, pretaxSubtotal. rewrite Hs.
  assert (Hgt : (quantity item >? 0)%Z = true) by (apply Z.gtb_lt; lia).
  rewrite Hgt.
  destruct (subtotal_tax item) as [t|]; [destruct pricesIncludeTax|];
    now apply rounded_unit_price_near.
Qed.

Definition item_1000_3 : LineItem :=
  {| name := "Vertikaalne taimekast"; sku := EmptyString; product_id := 0; quantity := 3;
     total := None; total_tax := None;
     subtotal := Some (1000 # 100); subtotal_tax := Some (180 # 100); price := None |}.

Lemma regular_price_accuracy_witness :
  Qabs (money (regularPrice true item_1000_3) * inject_Z 3
        - pretaxSubtotal true (1000 # 100) item_1000_3)
  <= inject_Z 3 * (1 # 200).
Proof.
  apply (regular_price_accuracy true item_1000_3 (1000 # 100)).
  - reflexivity.
  - reflexivity.
Defined.

(** How many rows a line of the order gives. *)
Definition is_bundle (item : LineItem) : bool :=
  String.eqb (name item) "Toataimede Uus Algus".

Definition shipping_charged (shipping : ShippingLine) : bool :=
  (0 <? toFixed2 (match shipping_total shipping with Some t => t | None => 0 end))%Z.

Definition coupon_applies (coupon : CouponLine) : bool :=
  Qlt_bool 0 (match discount coupon with Some d => d | None => 0 end).

Lemma length_flat_map {A B} (f : A -> list B) (l : list A) :
  List.length (flat_map f l) = fold_right (fun x n => (List.length (f x) + n)%nat) 0%nat l.
Proof. induction l as [|x l IH]; simpl; [reflexivity|]. now rewrite length_app, IH. Qed.

Lemma itemRows_length (vatTaxId : string) (pit : bool) (item : LineItem) :
  List.length (itemRows vatTaxId pit item) = if is_bundle item then 2%nat else 1%nat.
Proof.
  unfold itemRows, is_bundle. destruct (String.eqb _ _); [|reflexivity].
  unfold bundleRows. now destruct (replacementPrices _ _).
Qed.

Lemma shippingRows_shape (vatTaxId : string) (pit : bool) (shipping : ShippingLine) :
  List.length (shippingRows vatTaxId pit shipping)
  = (if shipping_charged shipping then 1%nat else 0%nat) /\
  Forall (fun row => Code (Item row) = "Transport"%string /\ Quantity row = 1%Z)
    (shippingRows vatTaxId pit shipping).
Proof.
  unfold shippingRows, shipping_charged.
  set (t := toFixed2 _).
  destruct (Z.leb_spec t 0) as [H|H]; destruct (Z.ltb_spec 0 t) as [H'|H']; try lia.
  - split; [reflexivity | constructor].
  - split; [reflexivity | repeat constructor].
Qed.

Lemma couponRows_shape (vatTaxId : string) (pit : bool) (coupon : CouponLine) :
  List.length (couponRows vatTaxId pit coupon)
  = (if coupon_applies coupon then 1%nat else 0%nat) /\
  Forall (fun row => Code (Item row) = "DISCOUNT"%string /\ Quantity row = 1%Z)
    (couponRows vatTaxId pit coupon).
Proof.
  unfold couponRows, coupon_applies, Qlt_bool.
  destruct (Qle_bool _ 0); simpl.
  - split; [reflexivity | constructor].
  - split; [reflexivity | repeat constructor].
Qed.

Lemma count_length {A} (f : A -> bool) (g : A -> nat) (l : list A) :
  (forall x, g x = if f x then 1%nat else 0%nat) ->
  fold_right (fun x n => (g x + n)%nat) 0%nat l = List.length (filter f l).
Proof.
  intros H. induction l as [|x l IH]; simpl; [reflexivity|].
  rewrite H, IH. now destruct (f x).
Qed.


End RowProperties.

Module CommentProperties.

Import Text TextFacts Merit.
Local Open Scope string_scope.

Fixpoint all_chars (p : ascii -> bool) (s : string) : bool :=
  match s with
  | EmptyString => true
  | String c r => p c && all_chars p r
  end.

Definition not_line_terminator (c : ascii) : bool := negb (is_line_terminator c).

Lemma span_all (p : ascii -> bool) (s : string) :
  all_chars p s = true -> span p s = (s, EmptyString).
Proof.
  induction s as [|c s IH]; simpl; [reflexivity|].
  intros H. apply andb_true_iff in H as [Hc Hs]. now rewrite Hc, (IH Hs).
Qed.

Lemma span_stop (p : ascii -> bool) (d : string) (c : ascii) (rest : string) :
  all_chars p d = true -> p c = false ->
  span p (d ++ String c rest) = (d, String c rest).
Proof.
  intros Hd Hc. induction d as [|x d IH]; simpl.
  - now rewrite Hc.
  - simpl in Hd. apply andb_true_iff in Hd as [Hx Hd]. now rewrite Hx, (IH Hd).
Qed.

Lemma all_digits_all_chars (s : string) : all_digits s = all_chars is_digit s.
Proof. induction s as [|c s IH]; simpl; [reflexivity | now rewrite IH]. Qed.

Lemma span_fst_all (p : ascii -> bool) (s : string) : all_chars p (fst (span p s)) = true.
Proof.
  induction s as [|c s IH]; simpl; [reflexivity|].
  destruct (p c) eqn:E; [|reflexivity].
  destruct (span p s) as [a b]. simpl in *. now rewrite E, IH.
Qed.

Lemma span_append (p : ascii -> bool) (s : string) :
  s = fst (span p s) ++ snd (span p s).
Proof.
  induction s as [|c s IH]; simpl; [reflexivity|].
  destruct (p c); [|reflexivity].
  destruct (span p s) as [a b]. simpl in *. now rewrite <- IH.
Qed.

Lemma span_snd_stops (p : ascii -> bool) (s : string) :
  match snd (span p s) with
  | EmptyString => True
  | String c _ => p c = false
  end.
Proof.
  induction s as [|c s IH]; simpl; [exact I|].
  destruct (p c) eqn:E; [|simpl; exact E].
  destruct (span p s) as [a b]. simpl in *. exact IH.
Qed.

Lemma has_newline_app (a b : string) :
  has_newline (a ++ b) = has_newline a || has_newline b.
Proof.
  induction a as [|c a IH]; simpl; [reflexivity|].
  rewrite IH. now rewrite orb_assoc.
Qed.

Lemma no_line_terminator_no_newline (s : string) :
  all_chars not_line_terminator s = true -> has_newline s = false.
Proof.
  induction s as [|c s IH]; simpl; [reflexivity|].
  intros H. apply andb_true_iff in H as [Hc Hs]. rewrite (IH Hs), orb_false_r.
  unfold not_line_terminator, is_line_terminator in Hc.
  destruct (Ascii.eqb_spec c "010") as [->|]; [discriminate Hc | reflexivity].
Qed.

Lemma match_ussimo_head (s g : string) :
  match_ussimo_here s = Some g -> match_ussimo s = Some g.
Proof. intros H. destruct s; cbn [match_ussimo]; now rewrite H. Qed.

(** The one-line form of the comment. *)
Definition lineComment (orderId customerName : string) : string :=
  "Ussimo #" ++ orderId ++ String " " customerName.

(** X5.  The one-line comment ["Ussimo #<orderId> <customerName>"], for
    an order id made of digits and a name that starts with a character
    that is not white space and has no line terminator, gives back the
    order id and the name, trimmed. *)
Theorem line_comment_round_trip (orderId : string) (c : ascii) (rest : string) :
  is_numeric orderId = true ->
  is_space c = false ->
  all_chars not_line_terminator (String c rest) = true ->
  extractOrderNumberFromHComment (lineComment orderId (String c rest)) = Some orderId /\
  extractCustomerNameFromHComment (lineComment orderId (String c rest))
  = Some (trim (String c rest)).
Proof.
  intros Hid Hc Hname. unfold is_numeric in Hid.
  apply andb_true_iff in Hid as [Hne Hdig].
  assert (Hsp : is_digit " " = false) by reflexivity.
  assert (Hspan : span is_digit (orderId ++ String " " (String c rest))
                  = (orderId, String " " (String c rest))).
  { apply span_stop; [now rewrite <- all_digits_all_chars | assumption]. }
  split.
  - unfold extractOrderNumberFromHComment, lineComment. simpl.
    rewrite Hspan. simpl. destruct orderId; [discriminate Hne | reflexivity].
  - unfold extractCustomerNameFromHComment.
    assert (Hnl : has_newline (lineComment orderId (String c rest)) = false).
    { unfold lineComment. simpl. rewrite has_newline_app.
      rewrite (all_digits_no_newline _ Hdig). simpl.
      change (has_newline (String c rest) = false).
      now apply no_line_terminator_no_newline. }
    rewrite (split_nl_single _ Hnl).
    change (is_empty (lineComment orderId (String c rest))) with false.
    cbn [List.length Nat.leb Nat.eqb].
    assert (Hm : match_ussimo_here (lineComment orderId (String c rest))
                 = Some (String c rest)).
    { unfold match_ussimo_here, lineComment.
      cbn [strip_prefix_ci append lower]. simpl strip_prefix_ci.
      cbn [span is_space]. simpl.
      rewrite Hspan.
      destruct orderId as [|d ds]; [discriminate Hne|]. cbn [is_empty].
      cbn [span]. change (is_space " ") with true. cbn iota.
      rewrite Hc. cbn iota beta.
      fold not_line_terminator. now rewrite (span_all _ _ Hname). }
    now rewrite (match_ussimo_head _ _ Hm).
Qed.

Lemma line_comment_round_trip_witness :
  extractOrderNumberFromHComment (lineComment "1736" "Malle Tammekivi") = Some "1736" /\
  extractCustomerNameFromHComment (lineComment "1736" "Malle Tammekivi")
  = Some "Malle Tammekivi".
Proof.
  apply (line_comment_round_trip "1736" "M" "alle Tammekivi"); reflexivity.
Defined.

Lemma match_order_number_shape (s d : string) :
  match_order_number s = Some d ->
  is_numeric d = true /\
  exists before after,
    s = before ++ String "#" (d ++ after) /\
    match after with EmptyString => True | String c _ => is_digit c = false end.
Proof.
  induction s as [|c s IH]; simpl; [discriminate|].
  destruct (Ascii.eqb_spec c "#") as [->|Hc].
  - destruct (is_empty (fst (span is_digit s))) eqn:E.
    + intros H. destruct (IH H) as (Hn & before & after & -> & Ha).
      split; [assumption|]. exists (String "#" before), after. auto.
    + intros [= <-]. split.
      * unfold is_numeric. rewrite E. simpl.
        rewrite all_digits_all_chars. apply span_fst_all.
      * exists EmptyString, (snd (span is_digit s)). split.
        -- simpl. f_equal. apply span_append.
        -- apply span_snd_stops.
  - intros H. destruct (IH H) as (Hn & before & after & -> & Ha).
    split; [assumption|]. exists (String c before), after. auto.
Qed.

Lemma extracted_number_numeric (comment d : string) :
  extractOrderNumberFromHComment comment = Some d -> is_numeric d = true.
Proof.
  unfold extractOrderNumberFromHComment.
  destruct (is_empty comment); [discriminate|].
  intros H. now apply match_order_number_shape in H.
Qed.

(** X6.  An order number read from a comment is a run of digits that is
    not empty, stands in the comment right after a [#] and is not
    followed by a digit. *)
Theorem extracted_order_number_shape (comment d : string) :
  extractOrderNumberFromHComment comment = Some d ->
  is_numeric d = true /\
  exists before after,
    comment = before ++ String "#" (d ++ after) /\
    match after with EmptyString => True | String c _ => is_digit c = false end.
Proof.
  unfold extractOrderNumberFromHComment.
  destruct (is_empty comment); [discriminate|]. apply match_order_number_shape.
Qed.

Lemma extracted_order_number_shape_witness :
  is_numeric "1736" = true /\
  exists before after,
    hComment "1736" "Malle Tammekivi" = before ++ String "#" ("1736" ++ after) /\
    match after with EmptyString => True | String c _ => is_digit c = false end.
Proof.
  apply (extracted_order_number_shape (hComment "1736" "Malle Tammekivi") "1736").
  reflexivity.
Defined.

End CommentProperties.

Module NumberingProperties.

Import Text TextFacts Merit.
Local Open Scope string_scope.



End NumberingProperties.

(** * The invoice list of the Merit service *)

Module InvoiceList.

Import Text TextFacts Merit.
Local Open Scope string_scope.

(** An invoice record as Merit lists it.  The fields the service reads
    are named; [HComment] is the empty text when the record has none. *)
Record MeritInvoice := {
  mi_InvoiceNo : string;
  mi_CustomerName : string;
  mi_HComment : string;
  mi_DocumentDate : string;
  mi_TransactionDate : string;
  mi_DueDate : string;
  mi_EmailSent : string
}.

Record Options := {
  startDate : string;        (* the empty text when absent *)
  endDate : string;
  unpaidOnly : bool;
  customerName : string;     (* the empty text when absent *)
  page : Z;
  limit : Z
}.

Inductive ListResponse :=
| RequestFails
| NotAList
| Listed (invoices : list MeritInvoice).

Inductive ListFailure :=
| DatesRequired            (* Start date and end date are required *)
| UnexpectedFormat         (* Unexpected response format from Merit API *)
| RequestFailed.

(** [s.toLowerCase()] on ASCII letters. *)
Fixpoint toLowerCase (s : string) : string :=
  match s with
  | EmptyString => EmptyString
  | String c r => String (lower c) (toLowerCase r)
  end.

(** [s.includes(t)] *)
Fixpoint includes (s t : string) : bool :=
  String.prefix t s ||
  match s with
  | EmptyString => false
  | String _ r => includes r t
  end.

(** [l.slice(start, end)]: a negative index counts from the end, both
    indices are clamped to the list. *)
Definition relative_index (len i : Z) : Z :=
  if (i <? 0)%Z then Z.max (len + i) 0 else Z.min i len.

Definition js_slice {A} (start stop : Z) (l : list A) : list A :=
  let len := Z.of_nat (List.length l) in
  let k := relative_index len start in
  let final := relative_index len stop in
  firstn (Z.to_nat (Z.max (final - k) 0)) (skipn (Z.to_nat k) l).

Section GetInvoices.

(** The formatting of a date text and the test for an overdue invoice go
    through the [Date] object of the platform and are taken as given. *)
Variable formatDate : string -> option string.
Variable isPastDue : MeritInvoice -> bool.

Record FormattedInvoice := {
  record : MeritInvoice;                     (* ...invoice *)
  DocumentDate : option string;
  TransactionDate : option string;
  DueDate : option string;
  EmailSent : option string;
  pastDue : bool;
  realCustomerName : string;
  extractedOrderNumber : string
}.

Record Pagination := {
  pg_total : nat;
  pg_page : Z;
  pg_limit : Z;
  pg_pages : option Z     (* None when the quotient is not finite: limit 0 *)
}.

Record InvoicePage := {
  invoices : list FormattedInvoice;
  pagination : Pagination
}.

Definition name_matches (searchTerm : string) (invoice : MeritInvoice) : bool :=
  match extractCustomerNameFromHComment (mi_HComment invoice) with
  | Some extractedName =>
      negb (is_empty extractedName) && includes (toLowerCase extractedName) searchTerm
  | None => false
  end.

(** The invoices that pass the filters, before pagination. *)
Definition filteredInvoices (options : Options) (invoices : list MeritInvoice)
  : list MeritInvoice :=
  let filtered := filter (fun invoice => String.eqb (mi_CustomerName invoice) "Eraisik")
                    invoices in
  if negb (is_empty (customerName options))
     && negb (is_empty (trim (customerName options))) then
    let searchTerm := toLowerCase (customerName options) in
    filter (name_matches searchTerm) filtered
  else filtered.

Definition format (invoice : MeritInvoice) : FormattedInvoice :=
  let extractedName := extractCustomerNameFromHComment (mi_HComment invoice) in
  let extractedOrderNumber := extractOrderNumberFromHComment (mi_HComment invoice) in
  {| record := invoice;
     DocumentDate := formatDate (mi_DocumentDate invoice);
     TransactionDate := formatDate (mi_TransactionDate invoice);
     DueDate := formatDate (mi_DueDate invoice);
     EmailSent := formatDate (mi_EmailSent invoice);
     pastDue := isPastDue invoice;
     realCustomerName :=
       match extractedName with
       | Some n => if is_empty n then "Unknown" else n
       | None => "Unknown"
       end;
     extractedOrderNumber :=
       match extractedOrderNumber with
       | Some n => n
       | None => EmptyString
       end |}.

Definition ceil_div (total : nat) (limit : Z) : option Z :=
  if (limit =? 0)%Z then None
  else Some (Qceiling (Qmake (Z.of_nat total) 1 / inject_Z limit)).

(** [getInvoices(options)] *)
Definition getInvoices (response : ListResponse) (options : Options)
  : ListFailure + InvoicePage :=
  if is_empty (startDate options) || is_empty (endDate options) then inl DatesRequired
  else
    match response with
    | RequestFails => inl RequestFailed
    | NotAList => inl UnexpectedFormat
    | Listed invoices =>
        let filtered := filteredInvoices options invoices in
        let totalCount := List.length filtered in
        let startIndex := ((page options - 1) * limit options)%Z in
        let endIndex := (startIndex + limit options)%Z in
        let paginatedInvoices := js_slice startIndex endIndex filtered in
        inr {| invoices := map format paginatedInvoices;
               pagination := {| pg_total := totalCount;
                                pg_page := page options;
                                pg_limit := limit options;
                                pg_pages := ceil_div totalCount (limit options) |} |}
    end.

End GetInvoices.

End InvoiceList.

Module InvoiceListFacts.

Import Text TextFacts Merit InvoiceList CommentProperties.
Local Open Scope string_scope.
Local Open Scope list_scope.

Lemma firstn_min_length {A} (n : nat) (l : list A) :
  firstn (Nat.min n (List.length l)) l = firstn n l.
Proof.
  destruct (Nat.le_ge_cases n (List.length l)) as [H|H].
  - now rewrite Nat.min_l.
  - rewrite Nat.min_r by assumption. now rewrite !firstn_all2 by lia.
Qed.

(** A window that starts at a position of the list and has a length. *)
Lemma js_slice_window {A} (s k : nat) (l : list A) :
  js_slice (Z.of_nat s) (Z.of_nat s + Z.of_nat k) l = firstn k (skipn s l).
Proof.
  unfold js_slice, relative_index.
  set (len := Z.of_nat (List.length l)).
  destruct (Z.ltb_spec (Z.of_nat s) 0) as [H|_]; [lia|].
  destruct (Z.ltb_spec (Z.of_nat s + Z.of_nat k) 0) as [H|_]; [lia|].
  destruct (Nat.le_ge_cases (List.length l) s) as [Hs|Hs].
  - rewrite (skipn_all2 l (n := s)) by assumption.
    rewrite skipn_all2 by (unfold len; lia). now rewrite !firstn_nil.
  - replace (Z.to_nat (Z.min (Z.of_nat s) len)) with s by (unfold len; lia).
    rewrite <- (firstn_min_length k). rewrite length_skipn.
    f_equal. unfold len. lia.
Qed.

(** A window that starts before the list and stops at its first
    position is empty. *)
Lemma js_slice_before {A} (k : Z) (l : list A) :
  (0 <= k)%Z -> js_slice (- k) 0 l = [].
Proof.
  intros Hk. unfold js_slice, relative_index.
  set (len := Z.of_nat (List.length l)).
  assert (Hlen : (0 <= len)%Z) by (unfold len; lia).
  destruct (Z.ltb_spec (- k) 0); simpl;
    replace (Z.to_nat _) with 0%nat by lia; reflexivity.
Qed.

Lemma firstn_plus {A} (a b : nat) (l : list A) :
  firstn (a + b) l = firstn a l ++ firstn b (skipn a l).
Proof.
  revert l. induction a as [|a IH]; intros l; simpl; [reflexivity|].
  destruct l as [|x l]; simpl.
  - now rewrite firstn_nil.
  - now rewrite IH.
Qed.

Section Pages.

Variable formatDate : string -> option string.
Variable isPastDue : MeritInvoice -> bool.

Definition with_page (options : Options) (p : Z) : Options :=
  {| startDate := startDate options; endDate := endDate options;
     unpaidOnly := unpaidOnly options; customerName := customerName options;
     page := p; limit := limit options |}.

(** The invoices of page [p], none when the call fails. *)
Definition page_invoices (response : ListResponse) (options : Options) (p : Z)
  : list (FormattedInvoice) :=
  match getInvoices formatDate isPastDue response (with_page options p) with
  | inr result => invoices result
  | inl _ => []
  end.

Definition dates_given (options : Options) : Prop :=
  is_empty (startDate options) = false /\ is_empty (endDate options) = false.

Lemma filteredInvoices_with_page (options : Options) (p : Z) (l : list MeritInvoice) :
  filteredInvoices (with_page options p) l = filteredInvoices options l.
Proof. reflexivity. Qed.

Lemma page_window (options : Options) (l : list MeritInvoice) (p : nat) :
  dates_given options -> (0 <= limit options)%Z ->
  page_invoices (Listed l) options (Z.of_nat (S p))
  = map (format formatDate isPastDue)
      (firstn (Z.to_nat (limit options))
         (skipn (p * Z.to_nat (limit options)) (filteredInvoices options l))).
Proof.
  intros [Hs He] Hl. unfold page_invoices, getInvoices.
  cbn [startDate endDate with_page page limit]. rewrite Hs, He. cbn [orb invoices].
  rewrite filteredInvoices_with_page. f_equal.
  rewrite <- (js_slice_window (p * Z.to_nat (limit options)) (Z.to_nat (limit options))).
  f_equal; nia.
Qed.


Lemma in_firstn {A} (n : nat) (l : list A) (x : A) : In x (firstn n l) -> In x l.
Proof.
  revert l. induction n as [|n IH]; intros [|y l]; simpl; try tauto.
  intros [->|H]; [now left | right; now apply IH].
Qed.

Lemma in_skipn_list {A} (n : nat) (l : list A) (x : A) : In x (skipn n l) -> In x l.
Proof.
  revert l. induction n as [|n IH]; intros [|y l]; simpl; try tauto.
  intros H. right. now apply IH.
Qed.

Lemma in_js_slice {A} (a b : Z) (l : list A) (x : A) : In x (js_slice a b l) -> In x l.
Proof. unfold js_slice. intros H. eapply in_skipn_list, in_firstn, H. Qed.

Lemma trim_empty_of_empty (s : string) : is_empty s = true -> is_empty (trim s) = true.
Proof. destruct s; [reflexivity | discriminate]. Qed.



End Pages.

(** A sample answer: three private invoices and one of a company. *)
Definition sample_invoice (no customer comment : string) : MeritInvoice :=
  {| mi_InvoiceNo := no; mi_CustomerName := customer; mi_HComment := comment;
     mi_DocumentDate := EmptyString; mi_TransactionDate := EmptyString;
     mi_DueDate := EmptyString; mi_EmailSent := EmptyString |}.

Definition sample_list : list MeritInvoice :=
  [ sample_invoice "1001" "Eraisik" (hComment "1736" "Malle Tammekivi");
    sample_invoice "1002" "Ussimo OY" EmptyString;
    sample_invoice "1003" "Eraisik" (hComment "1737" "Jaan Tamm");
    sample_invoice "1004" "Eraisik" "no order here" ].

Definition sample_options (name : string) (p l : Z) : Options :=
  {| startDate := "20250101"; endDate := "20250301"; unpaidOnly := false;
     customerName := name; page := p; limit := l |}.

Definition no_date (s : string) : option string := None.
Definition never_due (i : MeritInvoice) : bool := false.




End InvoiceListFacts.

(** * Automatic synchronization: the bulk and the periodic run *)

Module AutoSync.

Import Text TextFacts Merit InvoiceList.
Local Open Scope string_scope.
Local Open Scope list_scope.

(** An order as WooCommerce lists it: its number, its status, and the
    order data the invoice is made from. *)
Record ListedOrder := {
  lo_id : N;
  lo_status : string;
  lo_data : WooOrder
}.

(** A [Set] of texts, in insertion order. *)
Definition has (s : string) (set : list string) : bool := existsb (String.eqb s) set.

Definition add (s : string) (set : list string) : list string :=
  if has s set then set else set ++ [s].

(** How a request for a page of orders ends. *)
Inductive PageAnswer :=
| PageFails
| PageOrders (orders : list ListedOrder).   (* no [orders] field reads as none *)

Section Runs.

Variable formatDate : string -> option string.
Variable isPastDue : MeritInvoice -> bool.

(** The options of [fetchMeritInvoices]; page and customer name are left
    to their defaults, the dates come from the clock. *)
Definition fetchOptions (startDateFormat endDateFormat : string) : Options :=
  {| startDate := startDateFormat; endDate := endDateFormat; unpaidOnly := false;
     customerName := EmptyString; page := 1; limit := 1000 |}.

(** [extractOrderIdsFromInvoices] *)
Definition extractOrderIdsFromInvoices (meritInvoices : InvoicePage) : list string :=
  fold_left
    (fun orderIds invoice =>
       match extractOrderNumberFromHComment (mi_HComment (record invoice)) with
       | Some extractedOrderNumber =>
           if is_empty extractedOrderNumber then orderIds
           else add extractedOrderNumber orderIds
       | None => orderIds
       end)
    (invoices meritInvoices) [].

(** The orders a page contributes to the bulk run. *)
Definition wanted (startOrderId : N) (order : ListedOrder) : bool :=
  (startOrderId <=? lo_id order)%N && negb (String.eqb (lo_status order) "cancelled").

(** The loop that collects the pages, [fuel] bounding its turns.  It is
    entered with the page to fetch and the orders collected so far. *)
Fixpoint collectOrders (fetch : nat -> PageAnswer) (startOrderId : N)
    (fuel page : nat) (allFilteredOrders : list ListedOrder) : list ListedOrder :=
  match fuel with
  | O => allFilteredOrders
  | S fuel' =>
      if (1000 <=? List.length allFilteredOrders)%nat then allFilteredOrders
      else
        match fetch page with
        | PageFails => allFilteredOrders
        | PageOrders [] => allFilteredOrders
        | PageOrders orders =>
            let filteredOrders := filter (wanted startOrderId) orders in
            let allFilteredOrders := allFilteredOrders ++ filteredOrders in
            let hasMoreOrders := (List.length orders =? 100)%nat in
            let page := S page in
            if hasMoreOrders
               && negb ((1000 <=? List.length allFilteredOrders)%nat || (10 <? page)%nat)
            then collectOrders fetch startOrderId fuel' page allFilteredOrders
            else allFilteredOrders
        end
  end.

(** [orders.sort((a, b) => parseInt(a.id) - parseInt(b.id))]: ascending
    and stable. *)
Fixpoint insert_by_id (order : ListedOrder) (sorted : list ListedOrder) : list ListedOrder :=
  match sorted with
  | [] => [order]
  | other :: rest =>
      if (lo_id order <=? lo_id other)%N then order :: sorted
      else other :: insert_by_id order rest
  end.

Definition sort_by_id (orders : list ListedOrder) : list ListedOrder :=
  fold_right insert_by_id [] orders.

(** What the loop over the orders changes: the ids known to have an
    invoice, [autoSyncState.currentOrderId], and the calls made to
    [createInvoiceFromWooCommerceOrder] with their success. *)
Record LoopState := {
  existingOrderIds : list string;
  currentOrderId : option N;
  attempts : list (ListedOrder * bool)
}.

(** The loop over the orders.  [creates k order] tells whether the call
    number [k] of [createInvoiceFromWooCommerceOrder], made for [order],
    returns rather than throws. *)
Fixpoint processLoop (creates : nat -> ListedOrder -> bool)
    (orders : list ListedOrder) (st : LoopState) : LoopState :=
  match orders with
  | [] => st
  | order :: rest =>
      if has (N_toString (lo_id order)) (existingOrderIds st) then
        processLoop creates rest st
      else if creates (List.length (attempts st)) order then
        processLoop creates rest
          {| existingOrderIds := add (N_toString (lo_id order)) (existingOrderIds st);
             currentOrderId := Some (lo_id order);
             attempts := attempts st ++ [(order, true)] |}
      else
        processLoop creates rest
          {| existingOrderIds := existingOrderIds st;
             currentOrderId := currentOrderId st;
             attempts := attempts st ++ [(order, false)] |}
  end.

(** The order object handed to the Merit service. *)
Definition order_data (order : ListedOrder) : WooOrder :=
  {| id := N_toString (lo_id order);
     currency := currency (lo_data order);
     order_total := order_total (lo_data order);
     prices_include_tax := prices_include_tax (lo_data order);
     line_items := line_items (lo_data order);
     shipping_lines := shipping_lines (lo_data order);
     coupon_lines := coupon_lines (lo_data order);
     billing := billing (lo_data order) |}.

(** What a run reads from outside. *)
Record World := {
  config : Config;
  meritAnswer : ListResponse;              (* to the request for recent invoices *)
  periodStart : string;                    (* the two dates of that request *)
  periodEnd : string;
  fetchPage : nat -> PageAnswer;           (* the pages of orders, newest first *)
  newOrders : PageAnswer;                  (* the orders after the last sync *)
  envAt : nat -> Env;                      (* clock and invoice numbers at a call *)
  accepts : nat -> Invoice -> bool         (* whether Merit takes the invoice *)
}.

(** Whether call number [k] of [createInvoiceFromWooCommerceOrder]
    returns: the invoice has to be made and Merit has to take it. *)
Definition creates (world : World) (k : nat) (order : ListedOrder) : bool :=
  match createInvoiceFromWooCommerceOrder (config world) (envAt world k)
          (order_data order) with
  | Submitted invoiceData => accepts world k invoiceData
  | Failed _ => false
  end.

Definition startState (existing : list string) (current : option N) : LoopState :=
  {| existingOrderIds := existing; currentOrderId := current; attempts := [] |}.

(** [processBulkOrders]: [None] when it throws, which it does when the
    invoices cannot be fetched. *)
Definition processBulkOrders (world : World) (startOrderId : N) (current : option N)
  : option LoopState :=
  match getInvoices formatDate isPastDue (meritAnswer world)
          (fetchOptions (periodStart world) (periodEnd world)) with
  | inl _ => None
  | inr meritInvoices =>
      let existingOrderIds := extractOrderIdsFromInvoices meritInvoices in
      let allFilteredOrders := collectOrders (fetchPage world) startOrderId 10 1 [] in
      let allFilteredOrders := sort_by_id allFilteredOrders in
      Some (processLoop (creates world) allFilteredOrders
              (startState existingOrderIds current))
  end.

(** [processNewOrders]: an error is caught and logged; [None] stands for
    a run that ends that way. *)
Definition processNewOrders (world : World) (current : option N) : option LoopState :=
  match getInvoices formatDate isPastDue (meritAnswer world)
          (fetchOptions (periodStart world) (periodEnd world)) with
  | inl _ => None
  | inr meritInvoices =>
      let existingOrderIds := extractOrderIdsFromInvoices meritInvoices in
      match newOrders world with
      | PageFails => None
      | PageOrders orders =>
          let validOrders :=
            filter (fun order => negb (String.eqb (lo_status order) "cancelled")) orders in
          Some (processLoop (creates world) validOrders
                  (startState existingOrderIds current))
      end
  end.

End Runs.

End AutoSync.

Module AutoSyncFacts.

Import Text TextFacts Merit InvoiceList InvoiceListFacts AutoSync CommentProperties.
Local Open Scope string_scope.
Local Open Scope list_scope.

(** ** The set of ids *)

Lemma has_app (s : string) (a b : list string) : has s (a ++ b) = has s a || has s b.
Proof. unfold has. apply existsb_app. Qed.

Lemma has_add (s t : string) (set : list string) :
  has s (add t set) = String.eqb s t || has s set.
Proof.
  unfold add. destruct (has t set) eqn:E.
  - destruct (String.eqb_spec s t) as [->|]; [now rewrite E | reflexivity].
  - rewrite has_app. simpl. rewrite orb_false_r. apply orb_comm.
Qed.

Lemma has_In (s : string) (set : list string) : has s set = true <-> In s set.
Proof.
  unfold has. rewrite existsb_exists. split.
  - intros (x & Hin & E). apply String.eqb_eq in E. now subst.
  - intros H. exists s. split; [assumption | apply String.eqb_refl].
Qed.

(** ** The loop over the orders *)

Definition id_text (order : ListedOrder) : string := N_toString (lo_id order).

Record LoopFacts (orders : list ListedOrder) (st final : LoopState)
    (extra : list (ListedOrder * bool)) : Prop := {
  lf_attempts : attempts final = attempts st ++ extra;
  lf_fresh : forall o b, In (o, b) extra ->
               In o orders /\ has (id_text o) (existingOrderIds st) = false;
  lf_once : NoDup (map (fun a => lo_id (fst a)) (filter snd extra));
  lf_sorted : forall R, StronglySorted R orders -> StronglySorted R (map fst extra);
  lf_keeps : forall s, has s (existingOrderIds st) = true ->
               has s (existingOrderIds final) = true;
  lf_records : forall o, In (o, true) extra ->
                 has (id_text o) (existingOrderIds final) = true;
  lf_settles : forall o, In o orders ->
                 has (id_text o) (existingOrderIds final) = true \/ In (o, false) extra
}.

Lemma processLoop_facts (creates : nat -> ListedOrder -> bool)
    (orders : list ListedOrder) (st : LoopState) :
  exists extra, LoopFacts orders st (processLoop creates orders st) extra.
Proof.
  revert st. induction orders as [|order rest IH]; intros st.
  - exists []. constructor; cbn [processLoop].
    + now rewrite app_nil_r.
    + intros o b [].
    + constructor.
    + intros; constructor.
    + auto.
    + intros o [].
    + intros o [].
  - cbn [processLoop]. fold (id_text order).
    destruct (has (id_text order) (existingOrderIds st)) eqn:Ehas.
    + (* an invoice is known: skipped *)
      destruct (IH st) as (extra & F). exists extra.
      split; try apply F.
      * intros o b Hin. destruct (lf_fresh _ _ _ _ F o b Hin). split; [now right | assumption].
      * intros R HR. inversion HR; subst. now apply (lf_sorted _ _ _ _ F).
      * intros o [<-|Hin].
        -- left. now apply (lf_keeps _ _ _ _ F).
        -- now apply (lf_settles _ _ _ _ F).
    + destruct (creates (List.length (attempts st)) order) eqn:Ec.
      * (* created *)
        set (st' := {| existingOrderIds := add (id_text order) (existingOrderIds st);
                       currentOrderId := Some (lo_id order);
                       attempts := attempts st ++ [(order, true)] |}).
        destruct (IH st') as (extra & F). exists ((order, true) :: extra).
        assert (Hother : forall o b, In (o, b) extra ->
                  In o rest /\ has (id_text o) (existingOrderIds st) = false /\
                  lo_id o <> lo_id order).
        { intros o b Hin. destruct (lf_fresh _ _ _ _ F o b Hin) as [Hr Hh].
          cbn [st' existingOrderIds] in Hh. rewrite has_add in Hh.
          apply orb_false_iff in Hh as [Hne Hh]. repeat split; try assumption.
          intros C. unfold id_text in Hne. rewrite C, String.eqb_refl in Hne.
          discriminate. }
        split.
        -- rewrite (lf_attempts _ _ _ _ F). cbn [st' attempts]. now rewrite <- app_assoc.
        -- intros o b [[= <- <-]|Hin]; [split; [now left | assumption]|].
           destruct (Hother o b Hin) as (Hr & Hh & _). split; [now right | assumption].
        -- cbn [filter snd map fst]. constructor; [|apply F].
           intros Hin. apply in_map_iff in Hin as ([o b] & Hid & Hin).
           apply filter_In in Hin as [Hin _]. cbn [fst] in Hid.
           destruct (Hother o b Hin) as (_ & _ & Hne). contradiction.
        -- intros R HR. inversion HR as [|x l Hl Hall]; subst. cbn [map fst].
           constructor; [now apply (lf_sorted _ _ _ _ F)|].
           apply Forall_forall. intros o Hin.
           apply in_map_iff in Hin as ([o' b] & <- & Hin). cbn [fst].
           destruct (Hother o' b Hin) as (Hr & _).
           rewrite Forall_forall in Hall. now apply Hall.
        -- intros s Hs. apply (lf_keeps _ _ _ _ F). cbn [st' existingOrderIds].
           rewrite has_add, Hs. apply orb_true_r.
        -- intros o [[= <-]|Hin]; [|now apply (lf_records _ _ _ _ F)].
           apply (lf_keeps _ _ _ _ F). cbn [st' existingOrderIds].
           rewrite has_add, String.eqb_refl. reflexivity.
        -- intros o [<-|Hin].
           ++ left. apply (lf_keeps _ _ _ _ F). cbn [st' existingOrderIds].
              rewrite has_add, String.eqb_refl. reflexivity.
           ++ destruct (lf_settles _ _ _ _ F o Hin); [now left | right; now right].
      * (* the call failed *)
        set (st' := {| existingOrderIds := existingOrderIds st;
                       currentOrderId := currentOrderId st;
                       attempts := attempts st ++ [(order, false)] |}).
        destruct (IH st') as (extra & F). exists ((order, false) :: extra).
        split.
        -- rewrite (lf_attempts _ _ _ _ F). cbn [st' attempts]. now rewrite <- app_assoc.
        -- intros o b [[= <- <-]|Hin]; [split; [now left | assumption]|].
           destruct (lf_fresh _ _ _ _ F o b Hin) as [Hr Hh].
           split; [now right | exact Hh].
        -- cbn [filter snd]. apply F.
        -- intros R HR. inversion HR as [|x l Hl Hall]; subst. cbn [map fst].
           constructor; [now apply (lf_sorted _ _ _ _ F)|].
           apply Forall_forall. intros o Hin.
           apply in_map_iff in Hin as ([o' b] & <- & Hin). cbn [fst].
           destruct (lf_fresh _ _ _ _ F o' b Hin) as [Hr _].
           rewrite Forall_forall in Hall. now apply Hall.
        -- intros s Hs. now apply (lf_keeps _ _ _ _ F).
        -- intros o [[= ]|Hin]. now apply (lf_records _ _ _ _ F).
        -- intros o [<-|Hin].
           ++ right. now left.
           ++ destruct (lf_settles _ _ _ _ F o Hin); [now left | right; now right].
Qed.

(** ** Sorting by id *)

Definition id_le (a b : ListedOrder) : Prop := (lo_id a <= lo_id b)%N.

Lemma insert_by_id_perm (order : ListedOrder) (l : list ListedOrder) :
  Permutation (order :: l) (insert_by_id order l).
Proof.
  induction l as [|x l IH]; simpl; [reflexivity|].
  destruct (lo_id order <=? lo_id x)%N; [reflexivity|].
  rewrite perm_swap. now constructor.
Qed.

Lemma sort_by_id_perm (l : list ListedOrder) : Permutation l (sort_by_id l).
Proof.
  induction l as [|x l IH]; simpl; [constructor|].
  rewrite <- insert_by_id_perm. now constructor.
Qed.

Lemma insert_by_id_sorted (order : ListedOrder) (l : list ListedOrder) :
  StronglySorted id_le l -> StronglySorted id_le (insert_by_id order l).
Proof.
  induction l as [|x l IH]; intros Hs; simpl.
  - repeat constructor.
  - inversion Hs as [|y l' Hl Hall]; subst.
    destruct (N.leb_spec (lo_id order) (lo_id x)) as [H|H].
    + constructor; [assumption|]. constructor; [exact H|].
      rewrite Forall_forall in *. intros z Hz. specialize (Hall z Hz).
      unfold id_le in *. lia.
    + constructor; [now apply IH|].
      rewrite Forall_forall in *. intros z Hz.
      apply (Permutation_in _ (Permutation_sym (insert_by_id_perm order l))) in Hz.
      destruct Hz as [<-|Hz]; [unfold id_le; lia | now apply Hall].
Qed.

Lemma sort_by_id_sorted (l : list ListedOrder) : StronglySorted id_le (sort_by_id l).
Proof.
  induction l as [|x l IH]; simpl; [constructor | now apply insert_by_id_sorted].
Qed.

End AutoSyncFacts.

Module AutoSyncRuns.

Import Text TextFacts Merit InvoiceList InvoiceListFacts AutoSync AutoSyncFacts
  CommentProperties Samples.
Local Open Scope string_scope.
Local Open Scope list_scope.

(** ** Collecting the pages *)

(** Where a collected order comes from: it was there before, or it is a
    wanted order of a page that was fetched, the page the loop was
    entered with or one up to the tenth. *)
Lemma collectOrders_sources (fetch : nat -> PageAnswer) (startOrderId : N)
    (fuel page : nat) (all : list ListedOrder) (o : ListedOrder) :
  In o (collectOrders fetch startOrderId fuel page all) ->
  In o all \/
  (wanted startOrderId o = true /\
   exists p orders,
     (page <= p)%nat /\ (p = page \/ (p <= 10)%nat) /\
     fetch p = PageOrders orders /\ In o orders).
Proof.
  revert page all. induction fuel as [|fuel IH]; intros page all; cbn [collectOrders].
  - now left.
  - destruct (1000 <=? List.length all)%nat; [now left|].
    destruct (fetch page) as [|orders] eqn:Ef; [now left|].
    destruct orders as [|o1 os] eqn:Eo; [now left|]. rewrite <- Eo in *.
    assert (Hnew : In o (all ++ filter (wanted startOrderId) orders) ->
                   In o all \/
                   (wanted startOrderId o = true /\
                    exists p orders0,
                      (page <= p)%nat /\ (p = page \/ (p <= 10)%nat) /\
                      fetch p = PageOrders orders0 /\ In o orders0)).
    { intros Hin. apply in_app_or in Hin as [Hin|Hin]; [now left|].
      apply filter_In in Hin as [Hin Hw]. right. split; [assumption|].
      exists page, orders. rewrite Eo. rewrite <- Eo. auto. }
    clear Eo.
    destruct ((List.length orders =? 100)%nat
              && negb ((1000 <=? List.length (all ++ filter (wanted startOrderId) orders))%nat
                       || (10 <? S page)%nat)) eqn:Emore; [|exact Hnew].
    intros Hin. apply IH in Hin as [Hin|(Hw & p & orders0 & Hp & Hb & Hf & Hin)].
    + now apply Hnew.
    + right. split; [assumption|]. exists p, orders0.
      apply andb_true_iff in Emore as [_ Emore]. apply negb_true_iff in Emore.
      apply orb_false_iff in Emore as [_ Epage]. apply Nat.ltb_ge in Epage.
      repeat split; try assumption; lia.
Qed.

(** The bound on the turns of the loop is never what stops it: from the
    first page, ten turns are as good as any larger number. *)
Lemma collectOrders_fuel (fetch : nat -> PageAnswer) (startOrderId : N)
    (fuel page : nat) (all : list ListedOrder) :
  (1 <= fuel)%nat -> (11 <= fuel + page)%nat ->
  collectOrders fetch startOrderId (S fuel) page all
  = collectOrders fetch startOrderId fuel page all.
Proof.
  revert page all. induction fuel as [|fuel IH]; intros page all H1 H11; [lia|].
  cbn [collectOrders].
  destruct (1000 <=? List.length all)%nat; [reflexivity|].
  destruct (fetch page) as [|[|o1 os]]; try reflexivity.
  set (all' := all ++ filter (wanted startOrderId) (o1 :: os)).
  destruct ((List.length (o1 :: os) =? 100)%nat
            && negb ((1000 <=? List.length all')%nat || (10 <? S page)%nat)) eqn:Emore;
    [|reflexivity].
  apply andb_true_iff in Emore as [_ Emore]. apply negb_true_iff in Emore.
  apply orb_false_iff in Emore as [_ Epage]. apply Nat.ltb_ge in Epage.
  apply (IH (S page) all'); lia.
Qed.

Lemma collectOrders_ten_turns (fetch : nat -> PageAnswer) (startOrderId : N) (extra : nat) :
  collectOrders fetch startOrderId (10 + extra) 1 []
  = collectOrders fetch startOrderId 10 1 [].
Proof.
  induction extra as [|extra IH]; [now rewrite Nat.add_0_r|].
  rewrite <- IH. replace (10 + S extra)%nat with (S (10 + extra)) by lia.
  apply collectOrders_fuel; lia.
Qed.

(** ** The ids of the listed invoices *)

Definition id_step (orderIds : list string) (invoice : FormattedInvoice) : list string :=
  match extractOrderNumberFromHComment (mi_HComment (record invoice)) with
  | Some extractedOrderNumber =>
      if is_empty extractedOrderNumber then orderIds
      else add extractedOrderNumber orderIds
  | None => orderIds
  end.

Lemma id_fold (l : list FormattedInvoice) (acc : list string) (d : string) :
  has d (fold_left id_step l acc) = true <->
  has d acc = true \/
  exists f, In f l /\ extractOrderNumberFromHComment (mi_HComment (record f)) = Some d.
Proof.
  revert acc. induction l as [|f l IH]; intros acc; cbn [fold_left].
  - split; [now left | intros [H|(f & [] & _)]; assumption].
  - rewrite IH. unfold id_step at 1.
    destruct (extractOrderNumberFromHComment (mi_HComment (record f))) as [e|] eqn:E.
    + assert (Hne : is_empty e = false).
      { pose proof (extracted_number_numeric _ _ E) as Hn.
        unfold is_numeric in Hn. apply andb_true_iff in Hn as [Hn _].
        now apply negb_true_iff in Hn. }
      rewrite Hne, has_add. split.
      * intros [H|(g & Hg & Eg)].
        -- apply orb_true_iff in H as [H|H]; [|now left].
           apply String.eqb_eq in H. subst e. right. exists f. split; [now left | assumption].
        -- right. exists g. split; [now right | assumption].
      * intros [H|(g & [<-|Hg] & Eg)].
        -- left. rewrite H. apply orb_true_r.
        -- left. assert (e = d) by congruence. subst e.
           now rewrite String.eqb_refl.
        -- right. now exists g.
    + split.
      * intros [H|(g & Hg & Eg)]; [now left|]. right. exists g. split; [now right | assumption].
      * intros [H|(g & [<-|Hg] & Eg)]; [now left | congruence | right; now exists g].
Qed.

(** X11.  The ids taken from a page of invoices are the order numbers
    that can be read from the comments of its invoices, and no other. *)
Theorem order_ids_exact (meritInvoices : InvoicePage) (d : string) :
  has d (extractOrderIdsFromInvoices meritInvoices) = true <->
  exists f, In f (invoices meritInvoices) /\
            extractOrderNumberFromHComment (mi_HComment (record f)) = Some d.
Proof.
  unfold extractOrderIdsFromInvoices. fold id_step. rewrite id_fold.
  split; [intros [H|H]; [discriminate | assumption] | now right].
Qed.

(** ** The runs *)

Lemma order_number_of_hComment (idText name : string) :
  is_numeric idText = true ->
  extractOrderNumberFromHComment (hComment idText name) = Some idText.
Proof.
  intros Hid. unfold is_numeric in Hid. apply andb_true_iff in Hid as [Hne Hdig].
  unfold extractOrderNumberFromHComment, hComment. simpl.
  rewrite (span_digits idText name Hdig). simpl.
  destruct idText; [discriminate Hne | reflexivity].
Qed.

Definition is_private (invoice : MeritInvoice) : bool :=
  String.eqb (mi_CustomerName invoice) "Eraisik".

Section RunTheorems.

Variable formatDate : string -> option string.
Variable isPastDue : MeritInvoice -> bool.

(** The invoices the runs look at: the first thousand private ones. *)
Lemma fetched_invoices (world : World) (meritInvoices : InvoicePage) :
  getInvoices formatDate isPastDue (meritAnswer world)
    (fetchOptions (periodStart world) (periodEnd world)) = inr meritInvoices ->
  exists l,
    meritAnswer world = Listed l /\
    invoices meritInvoices
    = map (format formatDate isPastDue) (firstn 1000 (filter is_private l)).
Proof.
  unfold getInvoices. cbn [fetchOptions startDate endDate page limit].
  destruct (is_empty (periodStart world) || is_empty (periodEnd world)); [discriminate|].
  destruct (meritAnswer world) as [| |l]; try discriminate.
  intros [= <-]. exists l. split; [reflexivity|]. cbn [invoices]. f_equal.
  apply (js_slice_window 0 1000).
Qed.

Lemma some_eq {A} (a b : A) : Some a = Some b -> a = b.
Proof. congruence. Qed.

Lemma bulk_run_facts (world : World) (startOrderId : N) (current : option N)
    (final : LoopState) :
  processBulkOrders formatDate isPastDue world startOrderId current = Some final ->
  exists meritInvoices,
    getInvoices formatDate isPastDue (meritAnswer world)
      (fetchOptions (periodStart world) (periodEnd world)) = inr meritInvoices /\
    LoopFacts (sort_by_id (collectOrders (fetchPage world) startOrderId 10 1 []))
      (startState (extractOrderIdsFromInvoices meritInvoices) current)
      final (attempts final).
Proof.
  unfold processBulkOrders.
  destruct (getInvoices _ _ _ _) as [e|meritInvoices]; [discriminate|].
  cbv zeta. intros H. apply some_eq in H. subst final.
  exists meritInvoices. split; [reflexivity|].
  destruct (processLoop_facts (creates world)
              (sort_by_id (collectOrders (fetchPage world) startOrderId 10 1 []))
              (startState (extractOrderIdsFromInvoices meritInvoices) current))
    as (extra & F).
  pose proof (lf_attempts _ _ _ _ F) as Ha. cbn [startState attempts app] in Ha.
  rewrite Ha. exact F.
Qed.

Definition not_cancelled (order : ListedOrder) : bool :=
  negb (String.eqb (lo_status order) "cancelled").

Lemma periodic_run_facts (world : World) (current : option N) (final : LoopState) :
  processNewOrders formatDate isPastDue world current = Some final ->
  exists meritInvoices orders,
    getInvoices formatDate isPastDue (meritAnswer world)
      (fetchOptions (periodStart world) (periodEnd world)) = inr meritInvoices /\
    newOrders world = PageOrders orders /\
    LoopFacts (filter not_cancelled orders)
      (startState (extractOrderIdsFromInvoices meritInvoices) current)
      final (attempts final).
Proof.
  unfold processNewOrders.
  destruct (getInvoices _ _ _ _) as [e|meritInvoices]; [discriminate|].
  destruct (newOrders world) as [|orders]; [discriminate|].
  cbv zeta. intros H. apply some_eq in H. subst final.
  exists meritInvoices, orders.
  split; [reflexivity|]. split; [reflexivity|].
  destruct (processLoop_facts (creates world) (filter not_cancelled orders)
              (startState (extractOrderIdsFromInvoices meritInvoices) current))
    as (extra & F).
  pose proof (lf_attempts _ _ _ _ F) as Ha. cbn [startState attempts app] in Ha.
  fold not_cancelled. rewrite Ha. exact F.
Qed.

(** X12.  A bulk run that does not throw never calls the Merit service
    for an order whose number can be read from a listed invoice, succeeds
    at most once per order number, and leaves every collected order
    either with its number among the known ones or with a failed call. *)
Theorem bulk_run_no_duplicates (world : World) (startOrderId : N) (current : option N)
    (final : LoopState) :
  processBulkOrders formatDate isPastDue world startOrderId current = Some final ->
  exists meritInvoices,
    getInvoices formatDate isPastDue (meritAnswer world)
      (fetchOptions (periodStart world) (periodEnd world)) = inr meritInvoices /\
    (forall o b, In (o, b) (attempts final) ->
       has (id_text o) (extractOrderIdsFromInvoices meritInvoices) = false) /\
    NoDup (map (fun a => lo_id (fst a)) (filter snd (attempts final))) /\
    (forall o, In o (collectOrders (fetchPage world) startOrderId 10 1 []) ->
       has (id_text o) (existingOrderIds final) = true \/ In (o, false) (attempts final)).
Proof.
  intros Hrun. destruct (bulk_run_facts _ _ _ _ Hrun) as (meritInvoices & Hget & F).
  exists meritInvoices. split; [assumption|]. split; [|split].
  - intros o b Hin. now apply (lf_fresh _ _ _ _ F o b).
  - apply F.
  - intros o Hin. apply (lf_settles _ _ _ _ F).
    now apply (Permutation_in _ (sort_by_id_perm _)).
Qed.

(** X13.  A bulk run calls the Merit service in ascending order of the
    order numbers, and only for orders that are not cancelled, have a
    number that is at least the starting one, and stand on one of the
    first ten pages of orders. *)
Theorem bulk_run_order (world : World) (startOrderId : N) (current : option N)
    (final : LoopState) :
  processBulkOrders formatDate isPastDue world startOrderId current = Some final ->
  StronglySorted id_le (map fst (attempts final)) /\
  (forall o b, In (o, b) (attempts final) ->
     (startOrderId <= lo_id o)%N /\ lo_status o <> "cancelled" /\
     exists p orders,
       (1 <= p <= 10)%nat /\ fetchPage world p = PageOrders orders /\ In o orders).
Proof.
  intros Hrun. destruct (bulk_run_facts _ _ _ _ Hrun) as (meritInvoices & Hget & F).
  split.
  - apply (lf_sorted _ _ _ _ F). apply sort_by_id_sorted.
  - intros o b Hin. destruct (lf_fresh _ _ _ _ F o b Hin) as [Ho _].
    apply (Permutation_in _ (Permutation_sym (sort_by_id_perm _))) in Ho.
    apply collectOrders_sources in Ho as [[]|(Hw & p & orders & Hp & Hb & Hf & Ho)].
    unfold wanted in Hw. apply andb_true_iff in Hw as [Hid Hst].
    apply N.leb_le in Hid. apply negb_true_iff, String.eqb_neq in Hst.
    split; [assumption|]. split; [assumption|].
    exists p, orders. repeat split; try assumption. lia.
Qed.

(** X14.  A periodic run that goes through calls the Merit service only
    for listed orders that are not cancelled and whose number cannot be
    read from a listed invoice, in the order of the list, and succeeds at
    most once per order number. *)
Theorem periodic_run_no_duplicates (world : World) (current : option N)
    (final : LoopState) :
  processNewOrders formatDate isPastDue world current = Some final ->
  exists meritInvoices orders,
    getInvoices formatDate isPastDue (meritAnswer world)
      (fetchOptions (periodStart world) (periodEnd world)) = inr meritInvoices /\
    newOrders world = PageOrders orders /\
    (forall o b, In (o, b) (attempts final) ->
       In o orders /\ lo_status o <> "cancelled" /\
       has (id_text o) (extractOrderIdsFromInvoices meritInvoices) = false) /\
    (forall R, StronglySorted R orders -> StronglySorted R (map fst (attempts final))) /\
    NoDup (map (fun a => lo_id (fst a)) (filter snd (attempts final))).
Proof.
  intros Hrun.
  destruct (periodic_run_facts _ _ _ Hrun) as (meritInvoices & orders & Hget & Hnew & F).
  exists meritInvoices, orders. split; [assumption|]. split; [assumption|].
  split; [|split].
  - intros o b Hin. destruct (lf_fresh _ _ _ _ F o b Hin) as [Ho Hh].
    apply filter_In in Ho as [Ho Hst]. unfold not_cancelled in Hst.
    apply negb_true_iff, String.eqb_neq in Hst. auto.
  - intros R HR. apply (lf_sorted _ _ _ _ F).
    clear - HR. induction HR as [|x l Hl IH Hall]; simpl; [constructor|].
    destruct (not_cancelled x); [|assumption]. constructor; [assumption|].
    rewrite Forall_forall in *. intros y Hy. apply filter_In in Hy as [Hy _]. auto.
  - apply F.
Qed.

(** X15.  Once Merit lists, among its first thousand private invoices
    of the period, an invoice with the comment that the service wrote for
    an order, neither run calls the service for an order of that number
    again. *)
Theorem listed_invoice_blocks_order (world : World) (cfg : Config) (env : Env)
    (order : ListedOrder) (invoiceData : Invoice)
    (l : list MeritInvoice) (listed : MeritInvoice)
    (startOrderId : N) (current : option N) (final : LoopState) :
  createInvoiceFromWooCommerceOrder cfg env (order_data order) = Submitted invoiceData ->
  meritAnswer world = Listed l ->
  In listed (firstn 1000 (filter is_private l)) ->
  mi_HComment listed = HComment invoiceData ->
  processBulkOrders formatDate isPastDue world startOrderId current = Some final \/
  processNewOrders formatDate isPastDue world current = Some final ->
  forall o b, In (o, b) (attempts final) -> lo_id o <> lo_id order.
Proof.
  intros Hcreate Hl Hlisted Hcomment Hrun o b Hin Hsame.
  destruct (invoice_comment _ _ _ _ Hcreate) as (bl & _ & Hc).
  cbn [order_data id] in Hc.
  assert (Hnum : extractOrderNumberFromHComment (mi_HComment listed)
                 = Some (id_text order)).
  { rewrite Hcomment, Hc. apply order_number_of_hComment. apply toString_numeric. }
  assert (Hknown : forall meritInvoices,
            getInvoices formatDate isPastDue (meritAnswer world)
              (fetchOptions (periodStart world) (periodEnd world)) = inr meritInvoices ->
            has (id_text o) (extractOrderIdsFromInvoices meritInvoices) = true).
  { intros meritInvoices Hget.
    destruct (fetched_invoices world meritInvoices Hget) as (l' & Hl' & Hinv).
    assert (l' = l) by congruence. subst l'.
    unfold extractOrderIdsFromInvoices. fold id_step. apply id_fold. right.
    exists (format formatDate isPastDue listed). split.
    - rewrite Hinv. now apply in_map.
    - unfold format; cbn [record]. unfold id_text. rewrite Hsame. exact Hnum. }
  destruct Hrun as [Hrun|Hrun].
  - destruct (bulk_run_facts _ _ _ _ Hrun) as (mi & Hget & F).
    destruct (lf_fresh _ _ _ _ F o b Hin) as [_ Hh]. cbn [startState existingOrderIds] in Hh.
    rewrite (Hknown mi Hget) in Hh. discriminate.
  - destruct (periodic_run_facts _ _ _ Hrun) as (mi & orders & Hget & _ & F).
    destruct (lf_fresh _ _ _ _ F o b Hin) as [_ Hh]. cbn [startState existingOrderIds] in Hh.
    rewrite (Hknown mi Hget) in Hh. discriminate.
Qed.

End RunTheorems.

End AutoSyncRuns.

Module AutoSyncSamples.

Import Text Merit InvoiceList InvoiceListFacts AutoSync AutoSyncFacts AutoSyncRuns Samples.
Local Open Scope string_scope.
Local Open Scope list_scope.

Definition listed_order (n : N) (st : string) : ListedOrder :=
  {| lo_id := n; lo_status := st;
     lo_data := order_of (10 # 1) true [bundle_default 1] |}.

(** Merit lists invoices for the orders 1736 and 1737; WooCommerce has
    the orders 1740, 1736 and a cancelled 1738 on its first page. *)
Definition world0 : World :=
  {| config := config0;
     meritAnswer := Listed sample_list;
     periodStart := "20241201";
     periodEnd := "20250301";
     fetchPage := fun p =>
       match p with
       | 1%nat => PageOrders [ listed_order 1740 "completed";
                               listed_order 1736 "completed";
                               listed_order 1738 "cancelled" ]
       | _ => PageOrders []
       end;
     newOrders := PageOrders [ listed_order 1737 "processing";
                               listed_order 1741 "processing" ];
     envAt := fun _ => env0;
     accepts := fun _ _ => true |}.

Lemma bulk_run_no_duplicates_witness :
  match processBulkOrders no_date never_due world0 1736 None with
  | Some final =>
      exists meritInvoices,
        getInvoices no_date never_due (meritAnswer world0)
          (fetchOptions (periodStart world0) (periodEnd world0)) = inr meritInvoices /\
        (forall o b, In (o, b) (attempts final) ->
           has (id_text o) (extractOrderIdsFromInvoices meritInvoices) = false) /\
        NoDup (map (fun a => lo_id (fst a)) (filter snd (attempts final))) /\
        (forall o, In o (collectOrders (fetchPage world0) 1736 10 1 []) ->
           has (id_text o) (existingOrderIds final) = true \/ In (o, false) (attempts final))
  | None => False
  end.
Proof.
  destruct (processBulkOrders no_date never_due world0 1736 None) as [final|] eqn:E.
  - exact (bulk_run_no_duplicates no_date never_due world0 1736 None final E).
  - vm_compute in E. discriminate E.
Defined.

Lemma bulk_run_order_witness :
  match processBulkOrders no_date never_due world0 1736 None with
  | Some final =>
      StronglySorted id_le (map fst (attempts final)) /\
      (forall o b, In (o, b) (attempts final) ->
         (1736 <= lo_id o)%N /\ lo_status o <> "cancelled" /\
         exists p orders,
           (1 <= p <= 10)%nat /\ fetchPage world0 p = PageOrders orders /\ In o orders)
  | None => False
  end.
Proof.
  destruct (processBulkOrders no_date never_due world0 1736 None) as [final|] eqn:E.
  - exact (bulk_run_order no_date never_due world0 1736 None final E).
  - vm_compute in E. discriminate E.
Defined.

Lemma periodic_run_no_duplicates_witness :
  match processNewOrders no_date never_due world0 None with
  | Some final =>
      exists meritInvoices orders,
        getInvoices no_date never_due (meritAnswer world0)
          (fetchOptions (periodStart world0) (periodEnd world0)) = inr meritInvoices /\
        newOrders world0 = PageOrders orders /\
        (forall o b, In (o, b) (attempts final) ->
           In o orders /\ lo_status o <> "cancelled" /\
           has (id_text o) (extractOrderIdsFromInvoices meritInvoices) = false) /\
        (forall R, StronglySorted R orders -> StronglySorted R (map fst (attempts final))) /\
        NoDup (map (fun a => lo_id (fst a)) (filter snd (attempts final)))
  | None => False
  end.
Proof.
  destruct (processNewOrders no_date never_due world0 None) as [final|] eqn:E.
  - exact (periodic_run_no_duplicates no_date never_due world0 None final E).
  - vm_compute in E. discriminate E.
Defined.

Lemma listed_invoice_blocks_order_witness :
  match createInvoiceFromWooCommerceOrder config0 env0
          (order_data (listed_order 1736 "completed")),
        processBulkOrders no_date never_due world0 1736 None with
  | Submitted invoiceData, Some final =>
      forall o b, In (o, b) (attempts final) -> lo_id o <> 1736%N
  | _, _ => False
  end.
Proof.
  destruct (createInvoiceFromWooCommerceOrder config0 env0
              (order_data (listed_order 1736 "completed"))) as [e|invoiceData] eqn:Ec.
  - vm_compute in Ec. discriminate Ec.
  - destruct (processBulkOrders no_date never_due world0 1736 None) as [final|] eqn:E.
    + apply (listed_invoice_blocks_order no_date never_due world0 config0 env0
               (listed_order 1736 "completed") invoiceData sample_list
               (sample_invoice "1001" "Eraisik" (hComment "1736" "Malle Tammekivi"))
               1736 None final Ec).
      * reflexivity.
      * left. reflexivity.
      * vm_compute in Ec. injection Ec as <-. reflexivity.
      * left. exact E.
    + vm_compute in E. discriminate E.
Defined.

(** The sample bulk run: 1736 has an invoice, 1738 is cancelled, 1740 is
    invoiced. *)
Example bulk_run_sample :
  option_map (fun final => (map (fun a => (lo_id (fst a), snd a)) (attempts final),
                            existingOrderIds final, currentOrderId final))
    (processBulkOrders no_date never_due world0 1736 None)
  = Some ([(1740%N, true)], ["1736"; "1737"; "1740"], Some 1740%N).
Proof. vm_compute. reflexivity. Qed.

End AutoSyncSamples.

(** * The counters and the processed orders of the scheduler *)

Module SchedulerFacts.

Import Scheduler.
Local Open Scope nat_scope.

(** The counters add up, with [pending] orders still to be looked at. *)
Definition counts (pending : nat) (r : Results) : Prop :=
  res_total r = res_skipped r + res_processed r + pending /\
  res_processed r = res_failed r + res_succeeded r.

Definition control_ok (c : Control) : Prop :=
  match c with
  | AtGetOrders _ _ => True
  | AtGetOrderById _ rest results => counts (S (List.length rest)) results
  | AtTransform _ rest results => counts (S (List.length rest)) results
  end.

Definition result_ok (res : SyncResult) : Prop :=
  match res with
  | Completed results => counts 0 results
  | _ => True
  end.

Definition outcome_ok (out : SyncResult + Control) : Prop :=
  match out with
  | inl res => result_ok res
  | inr c => control_ok c
  end.

Lemma counts_skip (n : nat) (r : Results) : counts (S n) r -> counts n (skip r).
Proof. unfold counts, skip; simpl. lia. Qed.

Lemma counts_fail (n : nat) (r : Results) : counts (S n) r -> counts n (fail r).
Proof. unfold counts, fail; simpl. lia. Qed.

Lemma counts_succeed (n : nat) (r : Results) : counts (S n) r -> counts n (succeed r).
Proof. unfold counts, succeed; simpl. lia. Qed.

Lemma processOrders_ok (time : N) (orders : list OrderSummary) (results : Results)
    (st : State) :
  counts (List.length orders) results ->
  outcome_ok (snd (processOrders time orders results st)).
Proof.
  revert results. induction orders as [|order rest IH]; intros results H; simpl.
  - exact H.
  - destruct (existsb _ _); [apply IH, counts_skip, H|].
    destruct (negb _); [apply IH, counts_skip, H|]. exact H.
Qed.

Lemma resume_ok (time : N) (c : Control) (a : Answer) (st : State) :
  control_ok c -> outcome_ok (snd (resume time c a st)).
Proof.
  destruct c as [after before|order rest results|order rest results]; simpl; intros H.
  - destruct a as [|orders|]; try exact I.
    apply processOrders_ok. unfold counts; simpl. lia.
  - destruct a; try exact H. apply processOrders_ok, counts_fail, H.
  - destruct a.
    + apply processOrders_ok, counts_fail, H.
    + apply processOrders_ok, counts_succeed, H.
    + apply processOrders_ok, counts_succeed, H.
Qed.

Definition system_ok (sys : System) : Prop :=
  Forall control_ok (inflight sys) /\ Forall result_ok (returned sys).

Lemma land_run_ok (sys : System) (others : list Control)
    (r : State * (SyncResult + Control)) :
  Forall control_ok others -> Forall result_ok (returned sys) ->
  outcome_ok (snd r) -> system_ok (land_run sys others r).
Proof.
  intros Ho Hr Hout. destruct r as [st [res|c]]; simpl in *; split; simpl;
    try assumption; apply Forall_app; split; try assumption; now constructor.
Qed.

Lemma Forall_remove_nth {A} (P : A -> Prop) (n : nat) (l : list A) :
  Forall P l -> Forall P (remove_nth n l).
Proof.
  intros H. unfold remove_nth. apply Forall_app. split.
  - rewrite Forall_forall in *. intros x Hx. apply H.
    rewrite <- (firstn_skipn n l). apply in_or_app. now left.
  - rewrite Forall_forall in *. intros x Hx. apply H.
    rewrite <- (firstn_skipn (S n) l). apply in_or_app. now right.
Qed.

Lemma step_ok (sys : System) (i : Input) : system_ok sys -> system_ok (step sys i).
Proof.
  intros [Hc Hr]. destruct i as [fromDate toDate|n a time]; simpl.
  - apply land_run_ok; try assumption.
    unfold syncOrdersToInvoices. destruct (isSyncing (globals sys)); exact I.
  - destruct (nth_error (inflight sys) n) as [c|] eqn:E; [|now split].
    apply land_run_ok; try assumption.
    + now apply Forall_remove_nth.
    + apply resume_ok. rewrite Forall_forall in Hc. apply Hc.
      eapply nth_error_In, E.
Qed.

Lemma fold_step_ok (inputs : list Input) (sys : System) :
  system_ok sys -> system_ok (fold_left step inputs sys).
Proof.
  revert sys. induction inputs as [|i inputs IH]; intros sys H; simpl; [assumption|].
  apply IH, step_ok, H.
Qed.

(** X16.  Whatever requests are made and however the calls settle, the
    counters of every run that completes add up: the orders found are
    those skipped and those processed, and the orders processed are
    those that failed and those that succeeded. *)
Theorem sync_counters (inputs : list Input) (results : Results) :
  In (Completed results) (returned (run inputs)) ->
  res_total results = res_skipped results + res_processed results /\
  res_processed results = res_failed results + res_succeeded results.
Proof.
  intros Hin.
  assert (H : system_ok (run inputs)).
  { apply fold_step_ok. split; constructor. }
  destruct H as [_ Hr]. rewrite Forall_forall in Hr.
  specialize (Hr _ Hin). simpl in Hr. unfold counts in Hr. lia.
Qed.

Definition two_orders : list OrderSummary :=
  [ {| order_id := 7; status := "completed" |};
    {| order_id := 8; status := "pending" |} ].

Definition sample_inputs : list Input :=
  [ Trigger 0 10; Settle 0 (ResolvedOrders two_orders) 11;
    Settle 0 Resolved 12; Settle 0 Rejected 13 ].

Lemma sync_counters_witness :
  let results := {| res_total := 2; res_processed := 1; res_skipped := 1;
                    res_failed := 1; res_succeeded := 0 |} in
  res_total results = res_skipped results + res_processed results /\
  res_processed results = res_failed results + res_succeeded results.
Proof.
  intros results. apply (sync_counters sample_inputs results).
  vm_compute. left. reflexivity.
Defined.

(** ** The processed orders *)

Definition processed (sys : System) (orderId : N) : bool :=
  existsb (N.eqb orderId) (processedOrders (globals sys)).

Lemma processOrders_processed (time : N) (orders : list OrderSummary)
    (results : Results) (st : State) :
  processedOrders (fst (processOrders time orders results st)) = processedOrders st.
Proof.
  revert results. induction orders as [|order rest IH]; intros results; simpl.
  - reflexivity.
  - destruct (existsb _ _); [apply IH|]. destruct (negb _); [apply IH | reflexivity].
Qed.

(** The loop stops to fetch an order only when the order is completed
    and not among the processed ones. *)
Lemma processOrders_stops (time : N) (orders : list OrderSummary)
    (results : Results) (st : State) (c : Control) :
  snd (processOrders time orders results st) = inr c ->
  exists order rest results',
    c = AtGetOrderById order rest results' /\
    status order = "completed"%string /\
    existsb (N.eqb (order_id order)) (processedOrders st) = false.
Proof.
  revert results. induction orders as [|order rest IH]; intros results; simpl.
  - discriminate.
  - destruct (existsb _ _) eqn:E; [apply IH|].
    destruct (String.eqb (status order) "completed") eqn:Es; simpl; [|apply IH].
    intros [= <-]. exists order, rest, results.
    apply String.eqb_eq in Es. auto.
Qed.

Lemma resume_processed (time : N) (c : Control) (a : Answer) (st : State) (orderId : N) :
  In orderId (processedOrders st) ->
  In orderId (processedOrders (fst (resume time c a st))).
Proof.
  intros H. destruct c; simpl; destruct a; simpl;
    rewrite ?processOrders_processed; simpl; auto.
Qed.

Lemma step_processed (sys : System) (i : Input) (orderId : N) :
  In orderId (processedOrders (globals sys)) ->
  In orderId (processedOrders (globals (step sys i))).
Proof.
  intros H. destruct i as [fromDate toDate|n a time]; simpl.
  - unfold syncOrdersToInvoices. destruct (isSyncing (globals sys)); simpl; exact H.
  - destruct (nth_error (inflight sys) n) as [c|]; [|exact H].
    pose proof (resume_processed time c a (globals sys) orderId H) as Hr.
    destruct (resume time c a (globals sys)) as [st [res|c']]; exact Hr.
Qed.

(** X17.  An order recorded as processed stays recorded whatever
    requests and answers follow; and when a run goes on to ask for the
    details of an order, that order is completed and is not recorded as
    processed at that moment. *)
Theorem processed_orders_respected :
  (forall inputs more orderId,
     In orderId (processedOrders (globals (run inputs))) ->
     In orderId (processedOrders (globals (run (inputs ++ more))))) /\
  (forall time c a st st' order rest results,
     resume time c a st = (st', inr (AtGetOrderById order rest results)) ->
     status order = "completed"%string /\
     existsb (N.eqb (order_id order)) (processedOrders st') = false).
Proof.
  split.
  - intros inputs more orderId. unfold run. rewrite fold_left_app.
    generalize (fold_left step inputs initial). intros sys.
    revert sys. induction more as [|i more IH]; intros sys H; simpl; [assumption|].
    apply IH, step_processed, H.
  - intros time c a st st' order rest results H.
    assert (Hloop : forall orders r s,
              processOrders time orders r s = (st', inr (AtGetOrderById order rest results)) ->
              status order = "completed"%string /\
              existsb (N.eqb (order_id order)) (processedOrders st') = false).
    { intros orders r s Hp.
      pose proof (processOrders_processed time orders r s) as Hk.
      pose proof (processOrders_stops time orders r s (AtGetOrderById order rest results)) as Hs.
      rewrite Hp in Hk, Hs. simpl in Hk, Hs.
      destruct (Hs eq_refl) as (o & rs & r' & [= <- <- <-] & Hst & Hex).
      rewrite Hk. auto. }
    destruct c as [after before|o rs r|o rs r]; simpl in H.
    + destruct a as [|orders|]; try discriminate. now apply Hloop in H.
    + destruct a; try discriminate. now apply Hloop in H.
    + destruct a; now apply Hloop in H.
Qed.

Lemma processed_orders_respected_witness :
  status {| order_id := 7; status := "completed" |} = "completed"%string /\
  existsb (N.eqb 7) [] = false.
Proof.
  destruct processed_orders_respected as [_ H].
  apply (H 11%N (AtGetOrders 0 10) (ResolvedOrders two_orders)
           {| isSyncing := true; lastSyncTime := None; processedOrders := [] |}
           {| isSyncing := true; lastSyncTime := None; processedOrders := [] |}
           {| order_id := 7; status := "completed" |}
           [ {| order_id := 8; status := "pending" |} ]
           {| res_total := 2; res_processed := 0; res_skipped := 0;
              res_failed := 0; res_succeeded := 0 |}).
  reflexivity.
Defined.

End SchedulerFacts.

(** * The handler of the order webhook *)

Module WebhookHandler.

Import Text Merit Webhook Samples.
Local Open Scope string_scope.

(** The order a webhook carries: its status and the order data; the id
    is the text of [order.id], empty when there is none. *)
Record WebhookOrder := {
  wo_status : string;
  wo_order : WooOrder
}.

Record Reply := {
  code : nat;                      (* the HTTP status *)
  success : bool;
  created : option Invoice         (* the invoice Merit confirmed *)
}.

Section Handler.

Variable Body : Type.
Variable stringify : Body -> option string.
Variable hmac_sha256_base64 : string -> string -> option string.
(** The body read as an order; [None] for a body that is falsy. *)
Variable order_of_body : Body -> option WebhookOrder.
(** Whether Merit takes the invoice. *)
Variable accepts : Invoice -> bool.

Definition valid_status (s : string) : bool :=
  String.eqb s "completed" || String.eqb s "processing".

(** [router.post('/webhook/order', ...)] *)
Definition handleOrderWebhook (config : Config) (env : Env) (req : Request Body) : Reply :=
  if negb (validateWooCommerceWebhook Body stringify hmac_sha256_base64 config req) then
    {| code := 401; success := false; created := None |}
  else
    match order_of_body (body Body req) with
    | None => {| code := 400; success := false; created := None |}
    | Some order =>
        if is_empty (id (wo_order order)) then
          {| code := 400; success := false; created := None |}
        else if negb (valid_status (wo_status order)) then
          {| code := 200; success := true; created := None |}
        else
          match createInvoiceFromWooCommerceOrder config env (wo_order order) with
          | Submitted invoice =>
              if accepts invoice then
                {| code := 200; success := true; created := Some invoice |}
              else {| code := 500; success := false; created := None |}
          | Failed _ => {| code := 500; success := false; created := None |}
          end
    end.

(** X18.  The webhook answers 401 exactly when the signature check
    fails.  It has an invoice created only for a request that passes the
    check and carries an order with an id and the status completed or
    processing, and then answers 200; an order of another status is
    answered 200 as well, with no invoice. *)
Theorem webhook_gate (config : Config) (env : Env) (req : Request Body) :
  let reply := handleOrderWebhook config env req in
  (code reply = 401%nat <->
   validateWooCommerceWebhook Body stringify hmac_sha256_base64 config req = false) /\
  (forall invoice, created reply = Some invoice ->
     validateWooCommerceWebhook Body stringify hmac_sha256_base64 config req = true /\
     code reply = 200%nat /\
     exists order,
       order_of_body (body Body req) = Some order /\
       is_empty (id (wo_order order)) = false /\
       (wo_status order = "completed" \/ wo_status order = "processing") /\
       createInvoiceFromWooCommerceOrder config env (wo_order order) = Submitted invoice /\
       accepts invoice = true) /\
  (forall order,
     validateWooCommerceWebhook Body stringify hmac_sha256_base64 config req = true ->
     order_of_body (body Body req) = Some order ->
     is_empty (id (wo_order order)) = false ->
     valid_status (wo_status order) = false ->
     code reply = 200%nat /\ success reply = true /\ created reply = None).
Proof.
  cbv zeta. unfold handleOrderWebhook.
  destruct (validateWooCommerceWebhook _ _ _ _ _) eqn:Ev; cbn [negb].
  - destruct (order_of_body (body Body req)) as [order|] eqn:Eo.
    + destruct (is_empty (id (wo_order order))) eqn:Ei.
      * cbn [code created]. split; [split; discriminate|]. split; [discriminate|].
        intros o _ [= <-] C. congruence.
      * destruct (valid_status (wo_status order)) eqn:Es; cbn [negb].
        -- destruct (createInvoiceFromWooCommerceOrder config env (wo_order order))
             as [e|invoice] eqn:Ec.
           ++ cbn [code created]. split; [split; discriminate|]. split; [discriminate|].
              intros o _ [= <-] _ C. congruence.
           ++ destruct (accepts invoice) eqn:Ea; cbn [code created success].
              ** split; [split; discriminate|]. split.
                 --- intros inv [= <-]. split; [reflexivity|]. split; [reflexivity|].
                     exists order. repeat split; try assumption.
                     unfold valid_status in Es. apply orb_true_iff in Es as [Es|Es];
                       apply String.eqb_eq in Es; auto.
                 --- intros o _ [= <-] _ C. congruence.
              ** split; [split; discriminate|]. split; [discriminate|].
                 intros o _ [= <-] _ C. congruence.
        -- cbn [code created success]. split; [split; discriminate|].
           split; [discriminate|]. intros; auto.
    + cbn [code created]. split; [split; discriminate|]. split; [discriminate|].
      intros o _ C. discriminate C.
  - cbn [code created]. split; [split; reflexivity|]. split; [discriminate|].
    intros o C. discriminate C.
Qed.

End Handler.

Definition as_order (b : string) : option WebhookOrder :=
  Some {| wo_status := "pending"; wo_order := order_of (10 # 1) true [bundle_default 1] |}.

Lemma webhook_gate_witness :
  let reply := handleOrderWebhook string Some toy_hmac as_order (fun _ => true)
                 open_config env0 forged in
  code reply = 200%nat /\ success reply = true /\ created reply = None.
Proof.
  intros reply.
  destruct (webhook_gate string Some toy_hmac as_order (fun _ => true)
              open_config env0 forged) as (_ & _ & H).
  apply (H {| wo_status := "pending";
              wo_order := order_of (10 # 1) true [bundle_default 1] |});
    reflexivity.
Defined.

End WebhookHandler.

(** * The data transformer *)

Module DataTransformer.

Import Money Text Merit InvoiceList.
Local Open Scope string_scope.
Local Open Scope Q_scope.

(** A number tested for truthiness: 0 and [NaN] ([None]) are falsy. *)
Definition num_or (a : option Q) (b : Q) : Q :=
  match a with
  | Some x => if Qeq_bool x 0 then b else x
  | None => b
  end.

(** [Math.round]: the nearest integer, a tie going up. *)
Definition math_round (x : Q) : Z := Qfloor (x + (1 # 2)).

(** [calculateVatRate(priceWithTax, priceWithoutTax)] *)
Definition calculateVatRate (priceWithTax priceWithoutTax : Q) : Z :=
  if Qeq_bool priceWithTax 0 || Qeq_bool priceWithoutTax 0 then 20%Z
  else
    let vatRatio := priceWithTax / priceWithoutTax - 1 in
    let vatPercentage := math_round (vatRatio * 100) in
    if (vatPercentage <=? 0)%Z then 0%Z
    else if (vatPercentage <=? 10)%Z then 9%Z
    else if (vatPercentage <=? 21)%Z then 20%Z
    else 22%Z.

(** [mapVatRate(vatRate)] *)
Definition mapVatRate (vatRate : Q) : string :=
  if Qeq_bool vatRate 0 then "0%"
  else if Qeq_bool vatRate 9 then "9%"
  else if Qeq_bool vatRate 22 then "22%"
  else "20%".

(** A line item of the order handed to the transformer. *)
Record TItem := {
  ti_name : string;
  ti_quantity : option Q;
  ti_unitPrice : option Q;
  ti_price : option Q;         (* parseFloat(item.price) *)
  ti_totalAmount : option Q;
  ti_total : option Q;         (* parseFloat(item.total) *)
  ti_taxAmount : option Q;
  ti_total_tax : option Q;     (* parseFloat(item.total_tax) *)
  ti_taxRate : option Q;
  ti_unit : string;
  ti_sku : string
}.

Record TLine := {
  description : string;
  tl_quantity : Q;
  tl_price : Q;
  vatCode : string;
  unit : string;
  productCode : string
}.

Definition formatLine (item : TItem) : TLine :=
  let priceWithoutTax := num_or (ti_unitPrice item) (num_or (ti_price item) 0) in
  let totalWithoutTax := num_or (ti_totalAmount item) (num_or (ti_total item) 0) in
  let taxAmount := num_or (ti_taxAmount item) (num_or (ti_total_tax item) 0) in
  let totalWithTax := totalWithoutTax + taxAmount in
  let vatRate :=
    num_or (ti_taxRate item) (inject_Z (calculateVatRate totalWithTax totalWithoutTax)) in
  {| description := ti_name item;
     tl_quantity := num_or (ti_quantity item) 1;
     tl_price := priceWithoutTax;
     vatCode := mapVatRate vatRate;
     unit := or_else (ti_unit item) "pc";
     productCode := ti_sku item |}.

(** [formatInvoiceLines(lineItems)]; [None] is a value that is not an
    array. *)
Definition formatInvoiceLines (lineItems : option (list TItem)) : list TLine :=
  match lineItems with
  | None => []
  | Some items => map formatLine items
  end.

(** [mapPaymentMethod(paymentMethod)]; the empty text is a missing
    method. *)
Definition mapPaymentMethod (paymentMethod : string) : string :=
  if is_empty paymentMethod then "BankTransfer"
  else
    let method := toLowerCase paymentMethod in
    if includes method "bank" || includes method "transfer" then "BankTransfer"
    else if includes method "card" || includes method "credit"
            || includes method "visa" || includes method "mastercard" then "CreditCard"
    else if includes method "paypal" then "PayPal"
    else if includes method "cash" then "Cash"
    else "BankTransfer".

End DataTransformer.

Module DataTransformerFacts.

Import Money MoneyFacts Text Merit InvoiceList DataTransformer.
Local Open Scope string_scope.
Local Open Scope Q_scope.

Lemma Qfloor_le_iff (y : Q) (k : Z) : (Qfloor y <= k)%Z <-> y < inject_Z (k + 1).
Proof.
  pose proof (Qfloor_le y) as H1. pose proof (Qlt_floor y) as H2. split.
  - intros H. eapply Qlt_le_trans; [exact H2|]. rewrite <- Zle_Qle. lia.
  - intros H. assert (H3 : inject_Z (Qfloor y) < inject_Z (k + 1))
      by (eapply Qle_lt_trans; eassumption).
    rewrite <- Zlt_Qlt in H3. lia.
Qed.

Lemma math_round_le_iff (x : Q) (k : Z) :
  (math_round x <= k)%Z <-> x < inject_Z k + (1 # 2).
Proof.
  unfold math_round. rewrite Qfloor_le_iff, inject_Z_plus.
  change (inject_Z 1) with 1. split; intros H; lra.
Qed.

Lemma vat_bands (priceWithTax priceWithoutTax : Q) :
  ~ priceWithTax == 0 -> ~ priceWithoutTax == 0 ->
  let p := (priceWithTax / priceWithoutTax - 1) * 100 in
  (p < 1 # 2 -> calculateVatRate priceWithTax priceWithoutTax = 0%Z) /\
  (1 # 2 <= p -> p < 21 # 2 -> calculateVatRate priceWithTax priceWithoutTax = 9%Z) /\
  (21 # 2 <= p -> p < 43 # 2 -> calculateVatRate priceWithTax priceWithoutTax = 20%Z) /\
  (43 # 2 <= p -> calculateVatRate priceWithTax priceWithoutTax = 22%Z).
Proof.
  intros Hw Hwo p. unfold calculateVatRate.
  assert (E1 : Qeq_bool priceWithTax 0 = false).
  { destruct (Qeq_bool priceWithTax 0) eqn:E; [|reflexivity].
    apply Qeq_bool_iff in E. contradiction. }
  assert (E2 : Qeq_bool priceWithoutTax 0 = false).
  { destruct (Qeq_bool priceWithoutTax 0) eqn:E; [|reflexivity].
    apply Qeq_bool_iff in E. contradiction. }
  rewrite E1, E2. cbn [orb]. fold p.
  pose proof (math_round_le_iff p 0) as H0.
  pose proof (math_round_le_iff p 10) as H10.
  pose proof (math_round_le_iff p 21) as H21.
  change (inject_Z 0 + (1 # 2)) with (0 + (1 # 2)) in H0.
  change (inject_Z 10) with (10 # 1) in H10.
  change (inject_Z 21) with (21 # 1) in H21.
  destruct (Z.leb_spec (math_round p) 0) as [L0|L0];
    destruct (Z.leb_spec (math_round p) 10) as [L10|L10];
    destruct (Z.leb_spec (math_round p) 21) as [L21|L21];
    try lia;
    repeat split; intros; try reflexivity; exfalso;
    try (apply H0 in L0); try (apply H10 in L10); try (apply H21 in L21);
    try (assert (N0 : ~ p < 0 + (1 # 2)) by (intros C; apply H0 in C; lia));
    try (assert (N10 : ~ p < (10 # 1) + (1 # 2)) by (intros C; apply H10 in C; lia));
    try (assert (N21 : ~ p < (21 # 1) + (1 # 2)) by (intros C; apply H21 in C; lia));
    lra.
Qed.

Lemma vat_rate_22 (T : Q) : ~ T == 0 -> calculateVatRate (T + T * (22 # 100)) T = 22%Z.
Proof.
  intros HT.
  assert (Hw : ~ T + T * (22 # 100) == 0) by (intros C; apply HT; lra).
  apply (vat_bands _ _ Hw HT).
  assert (E : ((T + T * (22 # 100)) / T - 1) * 100 == 22) by (field; assumption).
  rewrite E. discriminate.
Qed.



Definition known_code (c : string) : Prop :=
  c = "0%" \/ c = "9%" \/ c = "20%" \/ c = "22%".

Lemma mapVatRate_known (r : Q) : known_code (mapVatRate r).
Proof.
  unfold mapVatRate, known_code.
  destruct (Qeq_bool r 0); [auto|].
  destruct (Qeq_bool r 9); [auto|].
  destruct (Qeq_bool r 22); auto.
Qed.

(** X20.  The lines are as many as the items and in their order; each
    carries one of the four VAT codes, and a quantity, a unit and a price
    that fall back to 1, "pc" and 0.  An item without a rate whose tax is
    22% of a total that is not zero gets the code 22%; an item without
    rate and total gets 20%.  What is not a list gives no lines. *)
Theorem invoice_lines_shape (items : list TItem) :
  formatInvoiceLines None = [] /\
  List.length (formatInvoiceLines (Some items)) = List.length items /\
  map description (formatInvoiceLines (Some items)) = map ti_name items /\
  Forall (fun line => known_code (vatCode line)) (formatInvoiceLines (Some items)) /\
  (forall item T,
     In item items -> ti_taxRate item = None ->
     ti_totalAmount item = Some T -> ~ T == 0 ->
     ti_taxAmount item = Some (T * (22 # 100)) ->
     vatCode (formatLine item) = "22%") /\
  (forall item,
     In item items -> ti_taxRate item = None ->
     ti_totalAmount item = None -> ti_total item = None ->
     vatCode (formatLine item) = "20%").
Proof.
  split; [reflexivity|]. split; [apply length_map|]. split; [apply map_map|].
  split; [|split].
  - apply Forall_forall. intros line Hin. apply in_map_iff in Hin as (item & <- & _).
    apply mapVatRate_known.
  - intros item T _ Hr HT HT0 Htax. unfold formatLine; cbn [vatCode].
    rewrite Hr, HT, Htax. cbn [num_or].
    assert (E0 : Qeq_bool T 0 = false).
    { destruct (Qeq_bool T 0) eqn:E; [|reflexivity]. apply Qeq_bool_iff in E. contradiction. }
    assert (E1 : Qeq_bool (T * (22 # 100)) 0 = false).
    { destruct (Qeq_bool (T * (22 # 100)) 0) eqn:E; [|reflexivity].
      apply Qeq_bool_iff in E. exfalso. apply HT0. lra. }
    rewrite E0, E1.
    assert (Hv : calculateVatRate (T + T * (22 # 100)) T = 22%Z).
    { apply vat_rate_22. assumption. }
    rewrite Hv. reflexivity.
  - intros item _ Hr HT Ht. unfold formatLine; cbn [vatCode].
    rewrite Hr, HT, Ht. cbn [num_or]. unfold calculateVatRate.
    change (Qeq_bool 0 0) with true. rewrite orb_true_r. reflexivity.
Qed.

Definition item_22 : TItem :=
  {| ti_name := "Biohuumus"; ti_quantity := None; ti_unitPrice := Some (10 # 1);
     ti_price := None; ti_totalAmount := Some (10 # 1); ti_total := None;
     ti_taxAmount := Some ((10 # 1) * (22 # 100)); ti_total_tax := None;
     ti_taxRate := None; ti_unit := EmptyString; ti_sku := EmptyString |}.

Lemma invoice_lines_shape_witness : vatCode (formatLine item_22) = "22%".
Proof.
  destruct (invoice_lines_shape [item_22]) as (_ & _ & _ & _ & H & _).
  apply (H item_22 (10 # 1)).
  - now left.
  - reflexivity.
  - reflexivity.
  - discriminate.
  - reflexivity.
Defined.

Lemma lower_idempotent (c : ascii) : lower (lower c) = lower c.
Proof. destruct c as [[] [] [] [] [] [] [] []]; reflexivity. Qed.

Lemma toLowerCase_idempotent (s : string) : toLowerCase (toLowerCase s) = toLowerCase s.
Proof.
  induction s as [|c s IH]; simpl; [reflexivity|]. now rewrite lower_idempotent, IH.
Qed.

Lemma toLowerCase_empty (s : string) : is_empty (toLowerCase s) = is_empty s.
Proof. now destruct s. Qed.

(** X21.  The payment method is one of BankTransfer, CreditCard, PayPal
    and Cash; the case of ASCII letters plays no part; and a method that
    names a bank is a bank transfer even when it names a card as well. *)
Theorem payment_method_classes (paymentMethod : string) :
  (mapPaymentMethod paymentMethod = "BankTransfer" \/
   mapPaymentMethod paymentMethod = "CreditCard" \/
   mapPaymentMethod paymentMethod = "PayPal" \/
   mapPaymentMethod paymentMethod = "Cash") /\
  mapPaymentMethod (toLowerCase paymentMethod) = mapPaymentMethod paymentMethod /\
  (includes (toLowerCase paymentMethod) "bank" = true ->
   mapPaymentMethod paymentMethod = "BankTransfer").
Proof.
  split; [|split].
  - unfold mapPaymentMethod.
    destruct (is_empty paymentMethod); [auto|].
    destruct (_ || _); [auto|]. destruct (_ || _); [auto|].
    destruct (includes _ "paypal"); [auto|]. destruct (includes _ "cash"); auto.
  - unfold mapPaymentMethod.
    now rewrite toLowerCase_empty, toLowerCase_idempotent.
  - intros H. unfold mapPaymentMethod.
    destruct (is_empty paymentMethod); [reflexivity|]. now rewrite H.
Qed.

Lemma payment_method_classes_witness : mapPaymentMethod "Bank Card" = "BankTransfer".
Proof.
  destruct (payment_method_classes "Bank Card") as (_ & _ & H).
  apply H. reflexivity.
Defined.

End DataTransformerFacts.

(** * Dates in the form Merit takes *)

Module MeritDates.

Import Text TextFacts.
Local Open Scope string_scope.

(** What the getters of a [Date] give. *)
Record DateParts := {
  fullYear : N;
  month : N;        (* getMonth(): 0 to 11 *)
  date : N;
  hours : N;
  minutes : N;
  seconds : N
}.

(** [pad2]: [n > 9 ? '' + n : '0' + n] *)
Definition pad2 (n : N) : string :=
  if (9 <? n)%N then N_toString n else "0" ++ N_toString n.

(** [formatDateForMerit(date)] *)
Definition formatDateForMerit (d : DateParts) : string :=
  let yyyy := N_toString (fullYear d) in
  let MM := pad2 (month d + 1) in
  let dd := pad2 (date d) in
  let HH := pad2 (hours d) in
  let mm := pad2 (minutes d) in
  let ss := pad2 (seconds d) in
  yyyy ++ MM ++ dd ++ HH ++ mm ++ ss.

Definition well_formed (d : DateParts) : Prop :=
  (1000 <= fullYear d <= 9999)%N /\ (month d <= 11)%N /\ (1 <= date d <= 31)%N /\
  (hours d <= 23)%N /\ (minutes d <= 59)%N /\ (seconds d <= 59)%N.

End MeritDates.

Module MeritDatesFacts.

Import Text TextFacts MeritDates.
Local Open Scope string_scope.

(** A check run over a range of numbers holds for each of them. *)
Lemma range_check (P : N -> bool) (lo len : nat) :
  forallb (fun k => P (N.of_nat k)) (seq lo len) = true ->
  forall n, (N.of_nat lo <= n < N.of_nat (lo + len))%N -> P n = true.
Proof.
  intros H n Hn. rewrite forallb_forall in H.
  specialize (H (N.to_nat n)). rewrite Nnat.N2Nat.id in H. apply H.
  apply in_seq. lia.
Qed.

Lemma year_length (y : N) : (1000 <= y <= 9999)%N -> String.length (N_toString y) = 4%nat.
Proof.
  intros H.
  apply Nat.eqb_eq.
  apply (range_check (fun n => Nat.eqb (String.length (N_toString n)) 4)
           (N.to_nat 1000) (N.to_nat 9000)).
  - vm_compute. reflexivity.
  - lia.
Qed.

Lemma pad2_length (n : N) : (n <= 99)%N -> String.length (pad2 n) = 2%nat.
Proof.
  intros H.
  apply Nat.eqb_eq.
  apply (range_check (fun n => Nat.eqb (String.length (pad2 n)) 2) 0 (N.to_nat 100)).
  - vm_compute. reflexivity.
  - lia.
Qed.

Lemma parseInt10_zero (s : string) : parseInt10 (String "0" s) = parseInt10 s.
Proof. reflexivity. Qed.

Lemma pad2_value (n : N) : parseInt10 (pad2 n) = n.
Proof.
  unfold pad2. destruct (9 <? n)%N.
  - apply parseInt10_toString.
  - change ("0" ++ N_toString n) with (String "0" (N_toString n)).
    rewrite parseInt10_zero. apply parseInt10_toString.
Qed.

Lemma all_digits_app (a b : string) :
  all_digits (a ++ b) = all_digits a && all_digits b.
Proof.
  induction a as [|c a IH]; simpl; [reflexivity|]. now rewrite IH, andb_assoc.
Qed.

Lemma pad2_digits (n : N) : all_digits (pad2 n) = true.
Proof.
  unfold pad2. destruct (9 <? n)%N.
  - apply string_of_uint_digits.
  - cbn [append all_digits]. apply string_of_uint_digits.
Qed.

Lemma length_app (a b : string) :
  String.length (a ++ b) = (String.length a + String.length b)%nat.
Proof. induction a as [|c a IH]; simpl; [reflexivity | now rewrite IH]. Qed.

Lemma substring_head (a b : string) :
  substring 0 (String.length a) (a ++ b) = a.
Proof.
  induction a as [|c a IH]; simpl.
  - now destruct b.
  - now rewrite IH.
Qed.

Lemma substring_skip (a b : string) (n : nat) :
  substring (String.length a) n (a ++ b) = substring 0 n b.
Proof. induction a as [|c a IH]; simpl; [reflexivity | exact IH]. Qed.

(** The text cut into a head of [k] characters and the rest. *)
Lemma cut (a b : string) (k : nat) :
  String.length a = k ->
  substring 0 k (a ++ b) = a /\ forall n, substring k n (a ++ b) = substring 0 n b.
Proof.
  intros <-. split; [apply substring_head | intros n; apply substring_skip].
Qed.

Lemma substring_shift (a b : string) (k i n : nat) :
  String.length a = k -> substring (k + i) n (a ++ b) = substring i n b.
Proof.
  intros <-. induction a as [|c a IH]; simpl; [reflexivity | exact IH].
Qed.

(** X22.  For a date with a year of four digits, the text has fourteen
    characters, all digits, and the year, the month counted from 1, the
    day, the hours, the minutes and the seconds are read back from fixed
    places. *)
Theorem merit_date_format (d : DateParts) :
  well_formed d ->
  let s := formatDateForMerit d in
  String.length s = 14%nat /\
  all_digits s = true /\
  parseInt10 (substring 0 4 s) = fullYear d /\
  parseInt10 (substring 4 2 s) = (month d + 1)%N /\
  parseInt10 (substring 6 2 s) = date d /\
  parseInt10 (substring 8 2 s) = hours d /\
  parseInt10 (substring 10 2 s) = minutes d /\
  parseInt10 (substring 12 2 s) = seconds d.
Proof.
  intros (Hy & Hm & Hd & Hh & Hmi & Hs). cbv zeta. unfold formatDateForMerit.
  set (yyyy := N_toString (fullYear d)).
  set (MM := pad2 (month d + 1)). set (dd := pad2 (date d)).
  set (HH := pad2 (hours d)). set (mm := pad2 (minutes d)). set (ss := pad2 (seconds d)).
  assert (Ly : String.length yyyy = 4%nat) by (apply year_length; lia).
  assert (LM : String.length MM = 2%nat) by (apply pad2_length; lia).
  assert (Ld : String.length dd = 2%nat) by (apply pad2_length; lia).
  assert (LH : String.length HH = 2%nat) by (apply pad2_length; lia).
  assert (Lm : String.length mm = 2%nat) by (apply pad2_length; lia).
  assert (Ls : String.length ss = 2%nat) by (apply pad2_length; lia).
  split; [|split].
  - rewrite !length_app. lia.
  - rewrite !all_digits_app. unfold yyyy, MM, dd, HH, mm, ss.
    unfold N_toString. now rewrite string_of_uint_digits, !pad2_digits.
  - assert (Ess : substring 0 2 ss = ss).
    { rewrite <- Ls. rewrite <- (substring_head ss EmptyString) at 2.
      f_equal. clear. induction ss as [|c s IH]; simpl; [reflexivity | now rewrite IH]. }
    repeat split.
    + rewrite <- Ly. rewrite substring_head. apply parseInt10_toString.
    + rewrite (substring_shift yyyy _ 4 0 2 Ly).
      rewrite <- LM. rewrite substring_head. apply pad2_value.
    + rewrite (substring_shift yyyy _ 4 2 2 Ly), (substring_shift MM _ 2 0 2 LM).
      rewrite <- Ld. rewrite substring_head. apply pad2_value.
    + rewrite (substring_shift yyyy _ 4 4 2 Ly), (substring_shift MM _ 2 2 2 LM),
        (substring_shift dd _ 2 0 2 Ld).
      rewrite <- LH. rewrite substring_head. apply pad2_value.
    + rewrite (substring_shift yyyy _ 4 6 2 Ly), (substring_shift MM _ 2 4 2 LM),
        (substring_shift dd _ 2 2 2 Ld), (substring_shift HH _ 2 0 2 LH).
      rewrite <- Lm. rewrite substring_head. apply pad2_value.
    + rewrite (substring_shift yyyy _ 4 8 2 Ly), (substring_shift MM _ 2 6 2 LM),
        (substring_shift dd _ 2 4 2 Ld), (substring_shift HH _ 2 2 2 LH),
        (substring_shift mm _ 2 0 2 Lm).
      rewrite Ess. apply pad2_value.
Qed.

Definition sample_date : DateParts :=
  {| fullYear := 2025; month := 2; date := 1; hours := 9; minutes := 5; seconds := 0 |}.

Lemma merit_date_format_witness :
  let s := formatDateForMerit sample_date in
  String.length s = 14%nat /\
  all_digits s = true /\
  parseInt10 (substring 0 4 s) = 2025%N /\
  parseInt10 (substring 4 2 s) = 3%N /\
  parseInt10 (substring 6 2 s) = 1%N /\
  parseInt10 (substring 8 2 s) = 9%N /\
  parseInt10 (substring 10 2 s) = 5%N /\
  parseInt10 (substring 12 2 s) = 0%N.
Proof.
  apply (merit_date_format sample_date).
  unfold well_formed, sample_date; simpl. lia.
Defined.

End MeritDatesFacts.
